(** * vault-web: the browser binding and the engine it drives

    The repository ships one source file, [src/index.js]: the page script
    that wires two buttons to the WebAssembly exports [encrypt_wrapper] and
    [decrypt_wrapper].  Module [Binding] embeds that script.  The engine
    behind the two exports (key derivation, AEAD, envelope codec, secure
    buffers) is compiled from sources that are not part of [src/]; module
    [Engine] models it from the design document. *)

From Stdlib Require Import Strings.String Strings.Byte Lists.List ZArith Lia.
From stdpp Require Import base list strings.

Local Open Scope string_scope.
Local Open Scope list_scope.

(** ** The fragment of JavaScript the handlers rely on *)

(** Strings are modelled by [string]: the handlers only test them for
    emptiness, splice them into a message and pass them on. *)

Module JS.

(** Values that can be thrown across the WebAssembly boundary.  The two
    exports come from generated glue that is not under [src/], so nothing
    is assumed of what they throw: a primitive, a string, an [Error] object
    (built on the Rust side, or raised by the glue or by a trap), some other
    object given by what its [toString] answers, a [Symbol], or an object
    whose conversion to a string itself throws (a missing or a throwing
    [toString]), given by what that conversion throws. *)
Inductive JsValue : Type :=
  | JsUndefined
  | JsNull
  | JsBoolean (b : bool)
  | JsString (s : string)
  | JsErrorObject (name message : string)
  | JsObject (toString : string)
  | JsSymbol (description : string)
  | JsUnprintable (thrown : JsValue).

(** How a statement or call ends. *)
Inductive completion (A : Type) : Type :=
  | Normal (a : A)
  | Throw (e : JsValue).
Arguments Normal {A} a.
Arguments Throw {A} e.

(** [Error.prototype.toString]: the name alone, the message alone, or
    ["name: message"]. *)
Definition error_toString (name message : string) : string :=
  match name, message with
  | EmptyString, _ => message
  | _, EmptyString => name
  | _, _ => name +:+ ": " +:+ message
  end.

(** What ToString throws on a [Symbol]; the wording is the host's. *)
Definition symbol_conversion : JsValue :=
  JsErrorObject "TypeError" "Cannot convert a Symbol value to a string".

(** The abstract operation ToString, as a template literal [`${e}`] applies
    it: it answers a string, or it throws. *)
Definition ToString (v : JsValue) : completion string :=
  match v with
  | JsUndefined => Normal "undefined"
  | JsNull => Normal "null"
  | JsBoolean true => Normal "true"
  | JsBoolean false => Normal "false"
  | JsString s => Normal s
  | JsErrorObject name message => Normal (error_toString name message)
  | JsObject toString => Normal toString
  | JsSymbol _ => Throw symbol_conversion
  | JsUnprintable thrown => Throw thrown
  end.

(** [!s] for a string [s]: only the empty string is falsy. *)
Definition not_string (s : string) : bool :=
  match s with
  | EmptyString => true
  | String _ _ => false
  end.

End JS.

Module Binding.
Import JS.

(** The four DOM properties the script touches.  [document.getElementById]
    is taken to find all five elements, as the page that loads the script
    declares them. *)
Inductive Slot : Type :=
  | PasswordValue        (* passwordInput.value *)
  | DataValue            (* dataInput.value *)
  | OutputTextContent    (* output.textContent *)
  | OutputClassName.     (* output.className *)

Record Page : Type := mkPage {
  password_value : string;
  data_value : string;
  output_textContent : string;
  output_className : string
}.

Definition page_get (k : Slot) (p : Page) : string :=
  match k with
  | PasswordValue => password_value p
  | DataValue => data_value p
  | OutputTextContent => output_textContent p
  | OutputClassName => output_className p
  end.

Definition page_set (k : Slot) (v : string) (p : Page) : Page :=
  match k with
  | PasswordValue => mkPage v (data_value p) (output_textContent p) (output_className p)
  | DataValue => mkPage (password_value p) v (output_textContent p) (output_className p)
  | OutputTextContent => mkPage (password_value p) (data_value p) v (output_className p)
  | OutputClassName => mkPage (password_value p) (data_value p) (output_textContent p) v
  end.

(** What a handler does that the outside can observe, in order. *)
Inductive Effect : Type :=
  | Wrote (k : Slot) (v : string)
  | CalledEncrypt (plaintextBytes : list byte) (password : string)
  | CalledDecrypt (encryptedJsonPayload : string) (password : string).

Definition is_call (ev : Effect) : bool :=
  match ev with
  | Wrote _ _ => false
  | CalledEncrypt _ _ | CalledDecrypt _ _ => true
  end.

Definition writes_input (ev : Effect) : bool :=
  match ev with
  | Wrote PasswordValue _ | Wrote DataValue _ => true
  | _ => false
  end.

(** What the script imports.  [Wasm] is the instantiated WebAssembly
    module: its linear memory and whatever its randomness source has
    consumed.  The two exports come from [./pkg/vault_wasm.js], which is
    generated at build time; each either returns or throws, and may change
    the module's own state, but has no handle on the page.
    [new TextEncoder().encode] and [new TextDecoder().decode] are host
    built-ins, total (the decoder is not in fatal mode). *)
Class Imports : Type := {
  Wasm : Type;
  encrypt_wrapper : list byte -> string -> Wasm -> completion string * Wasm;
  decrypt_wrapper : string -> string -> Wasm -> completion (list byte) * Wasm;
  TextEncoder_encode : string -> list byte;
  TextDecoder_decode : list byte -> string
}.

Section Handlers.
Context {imports : Imports}.

Record World : Type := mkWorld {
  page : Page;
  wasm : Wasm;
  journal : list Effect
}.

(** Statements: a world in, a completion and a world out. *)
Definition Js (A : Type) : Type := World -> completion A * World.

Definition js_ret {A} (a : A) : Js A := fun w => (Normal a, w).

Definition js_bind {A B} (m : Js A) (k : A -> Js B) : Js B :=
  fun w =>
    match m w with
    | (Normal a, w1) => k a w1
    | (Throw e, w1) => (Throw e, w1)
    end.

(** [try { body } catch (e) { handler }] *)
Definition try_catch {A} (body : Js A) (handler : JsValue -> Js A) : Js A :=
  fun w =>
    match body w with
    | (Normal a, w1) => (Normal a, w1)
    | (Throw e, w1) => handler e w1
    end.

Notation "x <- m ;; k" := (js_bind m (fun x => k))
  (at level 100, m at next level, right associativity).
Notation "m ;;; k" := (js_bind m (fun _ => k))
  (at level 100, right associativity).

Definition dom_read (k : Slot) : Js string :=
  fun w => (Normal (page_get k (page w)), w).

(** [`${e}`]: the conversion is evaluated where the template literal
    stands; if it throws, the statement it is part of is not carried out.
    The conversion may run a [toString] of the module's making; like the
    exports, it has no handle on the page. *)
Definition template (e : JsValue) : Js string :=
  fun w => (ToString e, w).

Definition dom_write (k : Slot) (v : string) : Js unit :=
  fun w => (Normal tt,
            mkWorld (page_set k v (page w)) (wasm w) (journal w ++ [Wrote k v])).

Definition call_encrypt_wrapper (plaintextBytes : list byte) (password : string)
  : Js string :=
  fun w =>
    let '(r, m) := encrypt_wrapper plaintextBytes password (wasm w) in
    (r, mkWorld (page w) m (journal w ++ [CalledEncrypt plaintextBytes password])).

Definition call_decrypt_wrapper (encryptedJsonPayload password : string)
  : Js (list byte) :=
  fun w =>
    let '(r, m) := decrypt_wrapper encryptedJsonPayload password (wasm w) in
    (r, mkWorld (page w) m (journal w ++ [CalledDecrypt encryptedJsonPayload password])).

(** index.js, lines 14-35 *)
Definition encryptBtn_click : Js unit :=
  password <- dom_read PasswordValue ;;
  plaintext <- dom_read DataValue ;;
  if not_string password || not_string plaintext then
    dom_write OutputTextContent "Please provide a password and data to encrypt." ;;;
    dom_write OutputClassName "error" ;;;
    js_ret tt
  else
    try_catch
      (let plaintextBytes := TextEncoder_encode plaintext in
       encryptedJsonPayload <- call_encrypt_wrapper plaintextBytes password ;;
       dom_write OutputTextContent encryptedJsonPayload ;;;
       dom_write OutputClassName "")
      (fun e =>
         shown <- template e ;;
         dom_write OutputTextContent ("Encryption failed: " +:+ shown) ;;;
         dom_write OutputClassName "error").

(** index.js, lines 38-60 *)
Definition decryptBtn_click : Js unit :=
  password <- dom_read PasswordValue ;;
  encryptedJsonPayload <- dom_read DataValue ;;
  if not_string password || not_string encryptedJsonPayload then
    dom_write OutputTextContent
      "Please provide a password and the encrypted JSON payload." ;;;
    dom_write OutputClassName "error" ;;;
    js_ret tt
  else
    try_catch
      (decryptedBytes <- call_decrypt_wrapper encryptedJsonPayload password ;;
       let plaintext := TextDecoder_decode decryptedBytes in
       dom_write OutputTextContent plaintext ;;;
       dom_write OutputClassName "")
      (fun e =>
         shown <- template e ;;
         dom_write OutputTextContent ("Decryption failed: " +:+ shown) ;;;
         dom_write OutputClassName "error").

(** A session: the user clicks, the event loop runs the listener.  A
    listener that throws does not stop the page; the next click is
    dispatched on the world it left. *)
Inductive Click : Type := EncryptClick | DecryptClick.

Definition listener (c : Click) : Js unit :=
  match c with
  | EncryptClick => encryptBtn_click
  | DecryptClick => decryptBtn_click
  end.

Fixpoint clicks (cs : list Click) (w : World) : World :=
  match cs with
  | [] => w
  | c :: cs' => clicks cs' (snd (listener c w))
  end.

End Handlers.

End Binding.

(** ** The engine behind the two exports *)

(** Everything in this module is modelled from the design document: the
    Rust sources of the engine are not part of [src/]. *)

Module Engine.

Definition bytes : Type := list byte.

(** Modelled from the spec: the error taxonomy of section 7; the engine's
    own error type is missing from [src/]. *)
Inductive Error : Type :=
  | EntropyUnavailable
  | DerivationResourceExhausted
  | AuthenticationFailed
  | MalformedEnvelope
  | UnsupportedVersion
  | InvalidEncoding
  | SerializationError.

(** Modelled from the spec: the answer of a fallible operation (the engine's
    [Result] is missing from [src/]): a value or one error of section 7. *)
Inductive result (A : Type) : Type :=
  | Ok (a : A)
  | Err (e : Error).
Arguments Ok {A} a.
Arguments Err {A} e.

(** Modelled from the spec: the Cost Parameters of section 3, the triple
    (memory size, iteration count, parallelism degree); the engine's struct
    is missing from [src/]. *)
Record CostParameters : Type := mkCost {
  memory_kib : Z;
  iterations : Z;
  parallelism : Z
}.

(** Modelled from the spec: the engine's hardcoded parameter set, missing
    from [src/].  Section 4.3: memory cost 256 MiB, 4 iterations, 8-way
    parallelism. *)
Definition fixed_params : CostParameters :=
  {| memory_kib := 256 * 1024; iterations := 4; parallelism := 8 |}.

(** Modelled from the spec: the engine's format version, missing from
    [src/].  Section 3: only one version exists; section 8 names it 1. *)
Definition current_version : Z := 1.

(** Modelled from the spec: the engine's length constants, missing from
    [src/].  Section 3: a 12-byte nonce and a 256-bit key. *)
Definition nonce_len : nat := 12.
Definition key_len : nat := 32.

(** Modelled from the spec: the versions this build understands (section
    4.5); the engine's check is missing from [src/]. *)
Definition supported_version (v : Z) : bool := (v =? current_version)%Z.

(** Modelled from the spec: the Envelope of section 3 with its binary
    fields decoded, [{version, kdf_params, salt, nonce, ciphertext}]; the
    engine's struct is missing from [src/]. *)
Record Envelope : Type := mkEnvelope {
  version : Z;
  kdf_params : CostParameters;
  salt : bytes;
  nonce : bytes;
  ciphertext : bytes
}.

(** Modelled from the spec: the wire format of section 6, missing from
    [src/]: the record as it travels, every binary field in its text-safe
    form and the salt carried inside [kdf_params]. *)
Record WireKdfParams : Type := mkWireKdf {
  wire_memory_kib : Z;
  wire_iterations : Z;
  wire_parallelism : Z;
  wire_salt : string
}.

Record Wire : Type := mkWire {
  wire_version : Z;
  wire_kdf_params : WireKdfParams;
  wire_nonce : string;
  wire_ciphertext : string
}.

(** Modelled from the spec: on release every byte of a Secure Buffer is
    overwritten with zero (section 4.2). *)
Definition zeroize (b : bytes) : bytes := replicate (length b) x00.

(** *** The facade as a program over calls of the units

    The facade, the codec and the buffer discipline are written below
    without any unit at hand: the only way they reach the randomness
    source, the buffers, the derivation, the cipher or the text encoding
    is a [Call], and every call is carried out, and recorded, by the one
    interpreter [run] further down. *)

Section Programs.
Variable Text : Type.

(** Modelled from the spec: one call of a leaf unit of section 4, indexed by
    the type of its answer.  4.1 [RandomBytes]; 4.2 [Acquire], [ReadBuffer],
    [Release] (a Secure Buffer is known by its handle); 4.3 [Derive]; 4.4
    [Seal], [Open]; 4.5 the text-safe encoding of a binary field and the
    structural writing and reading of the record. *)
Inductive Call : Type -> Type :=
  | RandomBytes (n : nat) : Call (result bytes)
  | Acquire (contents : bytes) : Call nat
  | ReadBuffer (handle : nat) : Call bytes
  | Release (handle : nat) : Call unit
  | Derive (password salt : bytes) (params : CostParameters) : Call (result bytes)
  | Seal (key nonce plaintext : bytes) : Call bytes
  | Open (key nonce ciphertext_and_tag : bytes) : Call (option bytes)
  | TextEncode (b : bytes) : Call string
  | TextDecode (t : string) : Call (option bytes)
  | WriteWire (w : Wire) : Call Text
  | ReadWire (text : Text) : Call (option Wire).

(** Modelled from the spec: the calls of the envelope codec (section 4.5),
    which are purely structural, as opposed to the randomness source, the
    buffers, the derivation and the cipher. *)
Definition is_codec {X : Type} (c : Call X) : bool :=
  match c with
  | TextEncode _ | TextDecode _ | WriteWire _ | ReadWire _ => true
  | _ => false
  end.

(** Modelled from the spec: an operation of the engine: it answers, fails
    with an error of section 7, or calls a unit and goes on from its
    answer. *)
Inductive Prog (A : Type) : Type :=
  | Ret (a : A)
  | Fail (e : Error)
  | Do {X : Type} (c : Call X) (k : X -> Prog A).
Arguments Ret {A} a.
Arguments Fail {A} e.
Arguments Do {A X} c k.

Fixpoint bind {A B : Type} (p : Prog A) (k : A -> Prog B) : Prog B :=
  match p with
  | Ret a => k a
  | Fail e => Fail e
  | Do c f => Do c (fun x => bind (f x) k)
  end.

Definition call {X : Type} (c : Call X) : Prog X := Do c Ret.

Notation "x <- m ;; k" := (bind m (fun x => k))
  (at level 100, m at next level, right associativity).

(** Every call a program can make, whatever the units answer, satisfies
    [P]. *)
Fixpoint every_call (P : forall X : Type, Call X -> Prop) {A : Type} (p : Prog A)
  : Prop :=
  match p with
  | Ret _ | Fail _ => True
  | Do c k => P _ c /\ forall x, every_call P (k x)
  end.

(** Modelled from the spec: the release path of section 9, which runs on
    every exit (normal return, early return, error): whatever [p] does and
    however it ends, the buffer [handle] is released before the answer or
    the error is passed on. *)
Fixpoint ensure_released {A : Type} (handle : nat) (p : Prog A) : Prog A :=
  match p with
  | Ret a => Do (Release handle) (fun _ => Ret a)
  | Fail e => Do (Release handle) (fun _ => Fail e)
  | Do c k => Do c (fun x => ensure_released handle (k x))
  end.

(** Modelled from the spec: the scoped acquisition of section 9: the
    contents are held in a Secure Buffer while [body] runs, and the buffer
    is released on every exit of [body]. *)
Definition with_buffer {A : Type} (contents : bytes) (body : nat -> Prog A) : Prog A :=
  handle <- call (Acquire contents) ;;
  ensure_released handle (body handle).

(** Modelled from the spec: section 4.1, one draw; [EntropyUnavailable] (or
    whatever the source reports) aborts the operation. *)
Definition draw (n : nat) : Prog bytes :=
  r <- call (RandomBytes n) ;;
  match r with
  | Ok b => Ret b
  | Err e => Fail e
  end.

(** Modelled from the spec: section 4.3, one call of the derivation with
    the password read from its buffer; the key comes back inside a Secure
    Buffer. *)
Definition derive_key (password : nat) (salt : bytes) (params : CostParameters)
  : Prog nat :=
  pw <- call (ReadBuffer password) ;;
  r <- call (Derive pw salt params) ;;
  match r with
  | Ok k => call (Acquire k)
  | Err e => Fail e
  end.

(** Modelled from the spec: section 4.4, one call of [seal] with the key
    read from its buffer. *)
Definition seal_with (key : nat) (nonce plaintext : bytes) : Prog bytes :=
  k <- call (ReadBuffer key) ;;
  call (Seal k nonce plaintext).

(** Modelled from the spec: section 4.4, one call of [open] with the key
    read from its buffer; [AuthenticationFailed] if the tag does not
    verify, and then no plaintext. *)
Definition open_with (key : nat) (nonce ciphertext : bytes) : Prog bytes :=
  k <- call (ReadBuffer key) ;;
  r <- call (Open k nonce ciphertext) ;;
  match r with
  | Some p => Ret p
  | None => Fail AuthenticationFailed
  end.

(** Modelled from the spec: [build] of section 4.5, missing from [src/]:
    every binary field is put in its text-safe form and the record is
    written. *)
Definition build_program (v : Z) (params : CostParameters)
           (salt nonce ciphertext : bytes) : Prog Text :=
  s <- call (TextEncode salt) ;;
  n <- call (TextEncode nonce) ;;
  c <- call (TextEncode ciphertext) ;;
  call (WriteWire
          {| wire_version := v;
             wire_kdf_params :=
               {| wire_memory_kib := memory_kib params;
                  wire_iterations := iterations params;
                  wire_parallelism := parallelism params;
                  wire_salt := s |};
             wire_nonce := n;
             wire_ciphertext := c |}).

(** Modelled from the spec: [parse] of section 4.5, missing from [src/].
    [MalformedEnvelope] if the text has not the structure of the record;
    [UnsupportedVersion] if the version is not one this build understands
    (the version decides how the remaining fields are interpreted, so it is
    checked before they are decoded); [InvalidEncoding] if a binary field
    does not decode. *)
Definition parse_program (text : Text) : Prog Envelope :=
  r <- call (ReadWire text) ;;
  match r with
  | None => Fail MalformedEnvelope
  | Some w =>
      if supported_version (wire_version w) then
        s <- call (TextDecode (wire_salt (wire_kdf_params w))) ;;
        n <- call (TextDecode (wire_nonce w)) ;;
        c <- call (TextDecode (wire_ciphertext w)) ;;
        match s, n, c with
        | Some s, Some n, Some c =>
            Ret {| version := wire_version w;
                   kdf_params :=
                     {| memory_kib := wire_memory_kib (wire_kdf_params w);
                        iterations := wire_iterations (wire_kdf_params w);
                        parallelism := wire_parallelism (wire_kdf_params w) |};
                   salt := s; nonce := n; ciphertext := c |}
        | _, _, _ => Fail InvalidEncoding
        end
      else Fail UnsupportedVersion
  end.

(** Modelled from the spec: [encrypt] of section 4.6, missing from [src/]
    (only its caller [encrypt_wrapper(...)] in index.js is there).  Fresh
    salt and nonce, the password in a Secure Buffer for the duration of the
    derivation, the plaintext sealed under the derived key, the envelope
    built, the key's buffer released on every path. *)
Definition encrypt_program (salt_len : nat) (plaintext password : bytes) : Prog Text :=
  salt <- draw salt_len ;;
  nonce <- draw nonce_len ;;
  key <- with_buffer password (fun pw => derive_key pw salt fixed_params) ;;
  ensure_released key
    (c <- seal_with key nonce plaintext ;;
     build_program current_version fixed_params salt nonce c).

(** Modelled from the spec: [decrypt] of section 4.6, missing from [src/]
    (only its caller [decrypt_wrapper(...)] in index.js is there).  The
    envelope is parsed first; the key is derived again from the supplied
    password and the stored salt and parameters; the ciphertext is opened;
    the key's buffer is released on every path. *)
Definition decrypt_program (text : Text) (password : bytes) : Prog bytes :=
  env <- parse_program text ;;
  key <- with_buffer password
           (fun pw => derive_key pw (salt env) (kdf_params env)) ;;
  ensure_released key (open_with key (nonce env) (ciphertext env)).

End Programs.

Arguments RandomBytes {Text} n.
Arguments Acquire {Text} contents.
Arguments ReadBuffer {Text} handle.
Arguments Release {Text} handle.
Arguments Derive {Text} password salt params.
Arguments Seal {Text} key nonce plaintext.
Arguments Open {Text} key nonce ciphertext_and_tag.
Arguments TextEncode {Text} b.
Arguments TextDecode {Text} t.
Arguments WriteWire {Text} w.
Arguments ReadWire {Text} text.
Arguments is_codec {Text X} c.
Arguments Ret {Text A} a.
Arguments Fail {Text A} e.
Arguments Do {Text A X} c k.
Arguments bind {Text A B} p k.
Arguments call {Text X} c.
Arguments every_call {Text} P {A} p.
Arguments ensure_released {Text A} handle p.
Arguments with_buffer {Text A} contents body.
Arguments draw {Text} n.
Arguments derive_key {Text} password salt params.
Arguments seal_with {Text} key nonce plaintext.
Arguments open_with {Text} key nonce ciphertext.
Arguments build_program {Text} v params salt nonce ciphertext.
Arguments parse_program {Text} text.
Arguments encrypt_program {Text} salt_len plaintext password.
Arguments decrypt_program {Text} text password.

(** Modelled from the spec: the leaf units of section 4, none of which is
    under [src/], as an interface.
    - 4.1 [random_bytes n]: [n] bytes from the host, or [EntropyUnavailable];
      [Rng] is the handle that is passed explicitly (section 9);
    - 3   [salt_len]: the fixed salt length;
    - 4.3 [derive password salt params]: the key, a function of its three
      arguments, or [DerivationResourceExhausted];
    - 4.4 [seal key nonce plaintext] and [open key nonce ciphertext_and_tag],
      which answers [None] when the tag does not verify;
    - 4.5 the text-safe encoding of a binary field, and the structural
      reading and writing of the record; [Text] is the serialized envelope. *)
Class Units : Type := {
  Rng : Type;
  random_bytes : nat -> Rng -> result bytes * Rng;
  salt_len : nat;
  derive : bytes -> bytes -> CostParameters -> result bytes;
  seal : bytes -> bytes -> bytes -> bytes;
  open : bytes -> bytes -> bytes -> option bytes;
  Text : Type;
  text_encode : bytes -> string;
  text_decode : string -> option bytes;
  write_wire : Wire -> Text;
  read_wire : Text -> option Wire
}.

(** Modelled from the spec: what the design document promises of the units.
    Section 3: decryption exactly inverts the chain, so [open] undoes [seal]
    under the same key and nonce, and the codec reads back what it wrote. *)
Class UnitsInvert (U : Units) : Prop := {
  open_seal : forall key nonce plaintext,
    open key nonce (seal key nonce plaintext) = Some plaintext;
  text_decode_encode : forall b, text_decode (text_encode b) = Some b;
  read_write_wire : forall w, read_wire (write_wire w) = Some w
}.

Section Facade.
Context {units : Units}.

(** *** 4.5 Envelope Codec: what the two codec programs answer *)

(** Modelled from the spec: the text [build] of section 4.5 answers with. *)
Definition build (v : Z) (params : CostParameters) (salt nonce ciphertext : bytes)
  : Text :=
  write_wire
    {| wire_version := v;
       wire_kdf_params :=
         {| wire_memory_kib := memory_kib params;
            wire_iterations := iterations params;
            wire_parallelism := parallelism params;
            wire_salt := text_encode salt |};
       wire_nonce := text_encode nonce;
       wire_ciphertext := text_encode ciphertext |}.

(** Modelled from the spec: what [parse] of section 4.5 answers with:
    [MalformedEnvelope] if the text has not the structure of the record;
    [UnsupportedVersion] if the version is not one this build understands;
    [InvalidEncoding] if a binary field does not decode. *)
Definition parse (text : Text) : result Envelope :=
  match read_wire text with
  | None => Err MalformedEnvelope
  | Some w =>
      if supported_version (wire_version w) then
        match text_decode (wire_salt (wire_kdf_params w)),
              text_decode (wire_nonce w),
              text_decode (wire_ciphertext w) with
        | Some s, Some n, Some c =>
            Ok {| version := wire_version w;
                  kdf_params :=
                    {| memory_kib := wire_memory_kib (wire_kdf_params w);
                       iterations := wire_iterations (wire_kdf_params w);
                       parallelism := wire_parallelism (wire_kdf_params w) |};
                  salt := s; nonce := n; ciphertext := c |}
        | _, _, _ => Err InvalidEncoding
        end
      else Err UnsupportedVersion
  end.

(** *** The state one operation runs in, and the interpreter *)

(** Modelled from the spec: a call that was carried out, with its
    answer. *)
Inductive Event : Type :=
  | Drew (n : nat) (answer : result bytes)
  | Acquired (contents : bytes) (handle : nat)
  | BufferRead (handle : nat) (contents : bytes)
  | Released (handle : nat)
  | Derived (password salt : bytes) (params : CostParameters) (answer : result bytes)
  | Sealed (key nonce plaintext : bytes) (answer : bytes)
  | Opened (key nonce ciphertext_and_tag : bytes) (answer : option bytes)
  | Encoded (b : bytes) (answer : string)
  | Decoded (t : string) (answer : option bytes)
  | WireWritten (w : Wire) (answer : Text)
  | WireRead (text : Text) (answer : option Wire).

Definition is_codec_event (ev : Event) : bool :=
  match ev with
  | Encoded _ _ | Decoded _ _ | WireWritten _ _ | WireRead _ _ => true
  | _ => false
  end.

(** Modelled from the spec: the calls that handle a password or a key
    (sections 4.2 to 4.4): those of the buffers, of the derivation and of
    the cipher. *)
Definition touches_secrets (ev : Event) : bool :=
  match ev with
  | Acquired _ _ | BufferRead _ _ | Released _
  | Derived _ _ _ _ | Sealed _ _ _ _ | Opened _ _ _ _ => true
  | _ => false
  end.

(** Modelled from the spec: the state an operation runs in.  [rng] is the
    randomness handle; [buffers] is the memory of the Secure Buffers handed
    out so far, live or released, indexed by handle; [trace] is every call
    carried out so far, in order. *)
Record State : Type := mkState {
  rng : Rng;
  buffers : list bytes;
  trace : list Event
}.

(** An operation as a function: a state in, an answer and a state out.  The
    state survives an error. *)
Definition Eng (A : Type) : Type := State -> result A * State.

Definition note (ev : Event) (s : State) : State :=
  mkState (rng s) (buffers s) (trace s ++ [ev]).

(** Modelled from the spec: what one call does.  4.1: the source answers
    and moves on.  4.2: a buffer is acquired holding its contents under the
    next handle; it is read while live (a released buffer reads as zeros);
    on release it is zeroized in place, and releasing twice changes nothing
    more.  4.3, 4.4, 4.5: the unit answers. *)
Definition perform {X : Type} (c : Call Text X) : State -> X * State :=
  match c in Call _ X return State -> X * State with
  | RandomBytes n => fun s =>
      let '(r, g) := random_bytes n (rng s) in
      (r, mkState g (buffers s) (trace s))
  | Acquire contents => fun s =>
      (length (buffers s), mkState (rng s) (buffers s ++ [contents]) (trace s))
  | ReadBuffer h => fun s => (default [] (buffers s !! h), s)
  | Release h => fun s =>
      (tt, mkState (rng s) (alter zeroize h (buffers s)) (trace s))
  | Derive password salt params => fun s => (derive password salt params, s)
  | Seal key nonce plaintext => fun s => (seal key nonce plaintext, s)
  | Open key nonce c => fun s => (open key nonce c, s)
  | TextEncode b => fun s => (text_encode b, s)
  | TextDecode t => fun s => (text_decode t, s)
  | WriteWire w => fun s => (write_wire w, s)
  | ReadWire text => fun s => (read_wire text, s)
  end.

Definition event_of {X : Type} (c : Call Text X) : X -> Event :=
  match c in Call _ X return X -> Event with
  | RandomBytes n => Drew n
  | Acquire contents => Acquired contents
  | ReadBuffer h => BufferRead h
  | Release h => fun _ => Released h
  | Derive password salt params => Derived password salt params
  | Seal key nonce plaintext => Sealed key nonce plaintext
  | Open key nonce c => Opened key nonce c
  | TextEncode b => Encoded b
  | TextDecode t => Decoded t
  | WriteWire w => WireWritten w
  | ReadWire text => WireRead text
  end.

(** Modelled from the spec: an operation carried out on the units.  Every
    call of the program is carried out by [perform] and recorded in the
    trace, in order; there is no other way for a program to reach a unit. *)
Fixpoint run {A : Type} (p : Prog Text A) (s : State) : result A * State :=
  match p with
  | Ret a => (Ok a, s)
  | Fail e => (Err e, s)
  | Do c k =>
      let '(x, s1) := perform c s in
      run (k x) (note (event_of c x) s1)
  end.

(** The calls the two codec programs make, with their answers. *)
Definition build_trace (v : Z) (params : CostParameters) (salt nonce ciphertext : bytes)
  : list Event :=
  [Encoded salt (text_encode salt);
   Encoded nonce (text_encode nonce);
   Encoded ciphertext (text_encode ciphertext);
   WireWritten
     {| wire_version := v;
        wire_kdf_params :=
          {| wire_memory_kib := memory_kib params;
             wire_iterations := iterations params;
             wire_parallelism := parallelism params;
             wire_salt := text_encode salt |};
        wire_nonce := text_encode nonce;
        wire_ciphertext := text_encode ciphertext |}
     (build v params salt nonce ciphertext)].

Definition parse_trace (text : Text) : list Event :=
  match read_wire text with
  | None => [WireRead text None]
  | Some w =>
      if supported_version (wire_version w) then
        [WireRead text (Some w);
         Decoded (wire_salt (wire_kdf_params w))
                 (text_decode (wire_salt (wire_kdf_params w)));
         Decoded (wire_nonce w) (text_decode (wire_nonce w));
         Decoded (wire_ciphertext w) (text_decode (wire_ciphertext w))]
      else [WireRead text (Some w)]
  end.

(** *** 4.6 Engine Facade *)

(** Modelled from the spec: [encrypt] of section 4.6: its program, run. *)
Definition encrypt (plaintext password : bytes) : Eng Text :=
  run (encrypt_program salt_len plaintext password).

(** Modelled from the spec: [decrypt] of section 4.6: its program, run. *)
Definition decrypt (text : Text) (password : bytes) : Eng bytes :=
  run (decrypt_program text password).

(** Modelled from the spec: section 4.2, the contents of a released
    buffer: every byte is zero. *)
Definition zeroized (b : bytes) : Prop := Forall (fun x => x = x00) b.
Definition all_zeroized (bs : list bytes) : Prop := Forall zeroized bs.

(** Modelled from the spec: the secure-memory discipline of sections 3 and
    4.2, read off the calls [done] of one operation on [password] and the
    buffer memory [final] it leaves:
    - every buffer that was acquired was released, and at the end holds
      zeros in place of what it was acquired with;
    - the derivation only ever took the caller's password, and took it out
      of a Secure Buffer acquired with it;
    - every key the derivation answered with was put in a Secure Buffer;
    - the cipher only ever took a key out of a Secure Buffer acquired with
      it. *)
Definition buffer_discipline (password : bytes) (final : list bytes)
           (done : list Event) : Prop :=
  (forall contents h,
     In (Acquired contents h) done ->
     In (Released h) done /\ final !! h = Some (zeroize contents)) /\
  (forall pw salt params answer,
     In (Derived pw salt params answer) done ->
     pw = password /\
     exists h, In (Acquired password h) done /\ In (BufferRead h password) done) /\
  (forall pw salt params k,
     In (Derived pw salt params (Ok k)) done ->
     exists h, In (Acquired k h) done) /\
  (forall k n p c,
     In (Sealed k n p c) done ->
     exists h, In (Acquired k h) done /\ In (BufferRead h k) done) /\
  (forall k n c answer,
     In (Opened k n c answer) done ->
     exists h, In (Acquired k h) done /\ In (BufferRead h k) done).

End Facade.

End Engine.

(** ** Executable stand-ins for what the script imports *)

Module SampleImports.
Import JS Binding.

(** A module whose exports always reject: encryption traps, decryption
    reports a failed authentication. *)
Definition rejecting : Imports := {|
  Wasm := nat;
  encrypt_wrapper := fun _ _ calls =>
    (Throw (JsErrorObject "RuntimeError" "unreachable"), S calls);
  decrypt_wrapper := fun _ _ calls =>
    (Throw (JsString "AuthenticationFailed"), S calls);
  TextEncoder_encode := list_byte_of_string;
  TextDecoder_decode := string_of_list_byte
|}.

(** A module whose exports hand back what they are given, as text or as
    bytes. *)
Definition echoing : Imports := {|
  Wasm := nat;
  encrypt_wrapper := fun plaintextBytes _ calls =>
    (Normal (string_of_list_byte plaintextBytes), S calls);
  decrypt_wrapper := fun encryptedJsonPayload _ calls =>
    (Normal (list_byte_of_string encryptedJsonPayload), S calls);
  TextEncoder_encode := list_byte_of_string;
  TextDecoder_decode := string_of_list_byte
|}.

(** A module whose exports throw a [Symbol]. *)
Definition throwing_symbol : Imports := {|
  Wasm := nat;
  encrypt_wrapper := fun _ _ calls => (Throw (JsSymbol "vault"), S calls);
  decrypt_wrapper := fun _ _ calls => (Throw (JsSymbol "vault"), S calls);
  TextEncoder_encode := list_byte_of_string;
  TextDecoder_decode := string_of_list_byte
|}.

(** A module whose exports throw an object whose [toString] throws the
    string "boom". *)
Definition throwing_unprintable : Imports := {|
  Wasm := nat;
  encrypt_wrapper := fun _ _ calls =>
    (Throw (JsUnprintable (JsString "boom")), S calls);
  decrypt_wrapper := fun _ _ calls =>
    (Throw (JsUnprintable (JsString "boom")), S calls);
  TextEncoder_encode := list_byte_of_string;
  TextDecoder_decode := string_of_list_byte
|}.

Definition blank_password : @World rejecting :=
  @mkWorld rejecting (mkPage "" "some data" "" "") 0 [].

Definition filled_in : @World rejecting :=
  @mkWorld rejecting (mkPage "hunter2" "some data" "" "") 0 [].

End SampleImports.

(** ** Executable stand-ins for the engine's units

    Small test doubles, with no security intended: they let the facade run
    on concrete inputs. *)

Module SampleUnits.
Import Engine.

(** The randomness source as a tape of bytes, consumed from the front; a
    tape that is too short is a host without entropy. *)
Definition tape_random (n : nat) (tape : bytes) : result bytes * bytes :=
  if (n <=? length tape)%nat then (Ok (take n tape), drop n tape)
  else (Err EntropyUnavailable, tape).

(** The key: password then salt, padded with zeros and cut to 32 bytes.  A
    host with less than 1 GiB refuses any larger request. *)
Definition pad_key (password salt : bytes) (params : CostParameters) : result bytes :=
  if (memory_kib params <=? 1024 * 1024)%Z then
    Ok (take key_len (password ++ salt ++ replicate key_len x00))
  else Err DerivationResourceExhausted.

Fixpoint strip_prefix (p l : bytes) : option bytes :=
  match p, l with
  | [], _ => Some l
  | x :: p', y :: l' => if Byte.eqb x y then strip_prefix p' l' else None
  | _ :: _, [] => None
  end.

(** Sealing puts key and nonce in front of the plaintext; opening checks
    both and removes them. *)
Definition keyed : Units := {|
  Rng := bytes;
  random_bytes := tape_random;
  salt_len := 16;
  derive := pad_key;
  seal := fun key nonce plaintext => key ++ nonce ++ plaintext;
  open := fun key nonce c => strip_prefix (key ++ nonce) c;
  Text := option Wire;
  text_encode := string_of_list_byte;
  text_decode := fun t => Some (list_byte_of_string t);
  write_wire := Some;
  read_wire := fun t => t
|}.

(** The same units with a cipher that ignores its key: sealing is the
    identity and every ciphertext verifies. *)
Definition transparent : Units := {|
  Rng := bytes;
  random_bytes := tape_random;
  salt_len := 16;
  derive := pad_key;
  seal := fun _ _ plaintext => plaintext;
  open := fun _ _ c => Some c;
  Text := option Wire;
  text_encode := string_of_list_byte;
  text_decode := fun t => Some (list_byte_of_string t);
  write_wire := Some;
  read_wire := fun t => t
|}.

Definition hello_vault : bytes := list_byte_of_string "hello vault".
Definition staple : bytes := list_byte_of_string "correct horse battery staple".
Definition wrong : bytes := list_byte_of_string "wrong".

(** Thirty-two bytes of entropy, enough for one salt and one nonce. *)
Definition tape32 : bytes := list_byte_of_string "0123456789abcdefABCDEFGHIJKL....".

Definition fresh_keyed : @State keyed := @mkState keyed tape32 [] [].
Definition fresh_transparent : @State transparent := @mkState transparent tape32 [] [].

(** An envelope of a format version this build does not know. *)
Definition future_wire : Wire :=
  {| wire_version := 2;
     wire_kdf_params :=
       {| wire_memory_kib := 262144; wire_iterations := 4;
          wire_parallelism := 8; wire_salt := "c2FsdA" |};
     wire_nonce := "bm9uY2U";
     wire_ciphertext := "Y2lwaGVy" |}.

Definition from_the_future : @Text keyed := Some future_wire.

(** An envelope of the current version that asks for 2 GiB. *)
Definition too_costly : @Text keyed :=
  Some {| wire_version := 1;
          wire_kdf_params :=
            {| wire_memory_kib := 2 * 1024 * 1024; wire_iterations := 4;
               wire_parallelism := 8; wire_salt := "0123456789abcdef" |};
          wire_nonce := "ABCDEFGHIJKL";
          wire_ciphertext := "" |}.

End SampleUnits.

(** ** The script from its first line: [run], and the page it finds *)

Module Startup.
Import JS Binding.

(** Which of the five ids [document.getElementById] finds; a missing one
    gives [null].  An id that is found names an element of the kind the
    script expects (a field with a [value], a button, a node with
    [textContent] and [className]). *)
Record Document : Type := mkDocument {
  has_password : bool;      (* getElementById("password") *)
  has_data : bool;          (* getElementById("data") *)
  has_encryptBtn : bool;    (* getElementById("encryptBtn") *)
  has_decryptBtn : bool;    (* getElementById("decryptBtn") *)
  has_output : bool         (* getElementById("output") *)
}.

(** The element a property belongs to. *)
Definition owner_found (k : Slot) (d : Document) : bool :=
  match k with
  | PasswordValue => has_password d
  | DataValue => has_data d
  | OutputTextContent | OutputClassName => has_output d
  end.

Definition prop_name (k : Slot) : string :=
  match k with
  | PasswordValue | DataValue => "value"
  | OutputTextContent => "textContent"
  | OutputClassName => "className"
  end.

(** Reading or setting a property of [null], or calling a method on it,
    throws a [TypeError]; the wording of the message is the host's. *)
Definition null_read (prop : string) : JsValue :=
  JsErrorObject "TypeError"
    ("Cannot read properties of null (reading '" +:+ prop +:+ "')").

Definition null_write (prop : string) : JsValue :=
  JsErrorObject "TypeError"
    ("Cannot set properties of null (setting '" +:+ prop +:+ "')").

Definition is_TypeError (e : JsValue) : bool :=
  match e with
  | JsErrorObject name _ => String.eqb name "TypeError"
  | _ => false
  end.

(** The listeners this script has attached. *)
Record Listeners : Type := mkListeners {
  on_encryptBtn : bool;
  on_decryptBtn : bool
}.

(** index.js, lines 3-12 and 61-63: [run()].  [await init()] either
    resolves or rejects; the five lookups cannot throw; the two
    [addEventListener] calls come in this order, each on a button that may
    be [null].  The answer is how the promise of [run()] settles and what
    has been attached by then. *)
Definition run (init : completion unit) (d : Document) : completion unit * Listeners :=
  match init with
  | Throw e => (Throw e, mkListeners false false)
  | Normal _ =>
      if has_encryptBtn d then
        if has_decryptBtn d then (Normal tt, mkListeners true true)
        else (Throw (null_read "addEventListener"), mkListeners true false)
      else (Throw (null_read "addEventListener"), mkListeners false false)
  end.

Section Script.
Context {imports : Imports}.

Notation "x <- m ;; k" := (js_bind m (fun x => k))
  (at level 100, m at next level, right associativity).
Notation "m ;;; k" := (js_bind m (fun _ => k))
  (at level 100, right associativity).

Definition js_throw {A} (e : JsValue) : Js A := fun w => (Throw e, w).

(** [element.prop] and [element.prop = v] on an element that may be
    [null]. *)
Definition get_prop (d : Document) (k : Slot) : Js string :=
  if owner_found k d then dom_read k else js_throw (null_read (prop_name k)).

Definition set_prop (d : Document) (k : Slot) (v : string) : Js unit :=
  if owner_found k d then dom_write k v else js_throw (null_write (prop_name k)).

(** index.js, lines 14-35, with the elements as [run] found them. *)
Definition encrypt_listener (d : Document) : Js unit :=
  password <- get_prop d PasswordValue ;;
  plaintext <- get_prop d DataValue ;;
  if not_string password || not_string plaintext then
    set_prop d OutputTextContent "Please provide a password and data to encrypt." ;;;
    set_prop d OutputClassName "error" ;;;
    js_ret tt
  else
    try_catch
      (let plaintextBytes := TextEncoder_encode plaintext in
       encryptedJsonPayload <- call_encrypt_wrapper plaintextBytes password ;;
       set_prop d OutputTextContent encryptedJsonPayload ;;;
       set_prop d OutputClassName "")
      (fun e =>
         shown <- template e ;;
         set_prop d OutputTextContent ("Encryption failed: " +:+ shown) ;;;
         set_prop d OutputClassName "error").

(** index.js, lines 38-60, with the elements as [run] found them. *)
Definition decrypt_listener (d : Document) : Js unit :=
  password <- get_prop d PasswordValue ;;
  encryptedJsonPayload <- get_prop d DataValue ;;
  if not_string password || not_string encryptedJsonPayload then
    set_prop d OutputTextContent
      "Please provide a password and the encrypted JSON payload." ;;;
    set_prop d OutputClassName "error" ;;;
    js_ret tt
  else
    try_catch
      (decryptedBytes <- call_decrypt_wrapper encryptedJsonPayload password ;;
       let plaintext := TextDecoder_decode decryptedBytes in
       set_prop d OutputTextContent plaintext ;;;
       set_prop d OutputClassName "")
      (fun e =>
         shown <- template e ;;
         set_prop d OutputTextContent ("Decryption failed: " +:+ shown) ;;;
         set_prop d OutputClassName "error").

(** A click on a button runs the listener attached to it, if any. *)
Definition dispatch (ls : Listeners) (d : Document) (c : Click) : Js unit :=
  match c with
  | EncryptClick => if on_encryptBtn ls then encrypt_listener d else js_ret tt
  | DecryptClick => if on_decryptBtn ls then decrypt_listener d else js_ret tt
  end.

(** The page from load on: [run()] settles, then the user clicks. *)
Fixpoint dispatch_all (ls : Listeners) (d : Document) (cs : list Click) (w : World)
  : World :=
  match cs with
  | [] => w
  | c :: cs' => dispatch_all ls d cs' (snd (dispatch ls d c w))
  end.

Definition page_session (init : completion unit) (d : Document) (cs : list Click)
           (w : World) : World :=
  dispatch_all (snd (run init d)) d cs w.

(** Whether the export behind a button returns, on the fields as they
    are. *)
Definition returns (c : Click) (w : World) : Prop :=
  match c with
  | EncryptClick =>
      exists payload m,
        encrypt_wrapper (TextEncoder_encode (data_value (page w)))
                        (password_value (page w)) (wasm w) = (Normal payload, m)
  | DecryptClick =>
      exists decryptedBytes m,
        decrypt_wrapper (data_value (page w)) (password_value (page w)) (wasm w)
          = (Normal decryptedBytes, m)
  end.

(** The message a handler shows when a field is empty. *)
Definition guard_message (c : Click) : string :=
  match c with
  | EncryptClick => "Please provide a password and data to encrypt."
  | DecryptClick => "Please provide a password and the encrypted JSON payload."
  end.

(** How often the exports were invoked, by the journal. *)
Definition count_calls (j : list Effect) : nat := length (List.filter is_call j).

(** The user copies what the output element shows into the data field. *)
Definition paste_output (w : World) : World :=
  mkWorld (page_set DataValue (output_textContent (page w)) (page w))
          (wasm w) (journal w).

End Script.

(** Sample pages over the echoing module: both fields filled in, with a
    stale error showing or with nothing showing. *)
Definition stale_page : @World SampleImports.echoing :=
  @mkWorld SampleImports.echoing (mkPage "hunter2" "some data" "old" "error") 0 [].

Definition clean_page : @World SampleImports.echoing :=
  @mkWorld SampleImports.echoing (mkPage "hunter2" "some data" "" "") 0 [].

(** Both fields filled in, over the modules that throw what does not
    convert. *)
Definition symbol_page : @World SampleImports.throwing_symbol :=
  @mkWorld SampleImports.throwing_symbol (mkPage "hunter2" "some data" "" "") 0 [].

Definition unprintable_page : @World SampleImports.throwing_unprintable :=
  @mkWorld SampleImports.throwing_unprintable
           (mkPage "hunter2" "some data" "" "") 0 [].

Definition complete : Document := mkDocument true true true true true.
Definition no_password_field : Document := mkDocument false true true true true.
Definition no_output : Document := mkDocument true true true true false.
Definition no_encrypt_button : Document := mkDocument true true false true true.

End Startup.

(** ** Properties of the click handlers *)

Module BindingProofs.
Import JS Binding.

(** The handlers run on the sample modules. *)

Example encrypt_click_shows_payload :
  @encryptBtn_click SampleImports.echoing
    (@mkWorld SampleImports.echoing (mkPage "hunter2" "some data" "old" "error") 0 [])
  = (Normal tt,
     @mkWorld SampleImports.echoing (mkPage "hunter2" "some data" "some data" "") 1
       [CalledEncrypt (list_byte_of_string "some data") "hunter2";
        Wrote OutputTextContent "some data";
        Wrote OutputClassName ""]).
Proof. reflexivity. Qed.

Example decrypt_click_shows_failure :
  @decryptBtn_click SampleImports.rejecting SampleImports.filled_in
  = (Normal tt,
     @mkWorld SampleImports.rejecting
       (mkPage "hunter2" "some data" "Decryption failed: AuthenticationFailed" "error") 1
       [CalledDecrypt "some data" "hunter2";
        Wrote OutputTextContent "Decryption failed: AuthenticationFailed";
        Wrote OutputClassName "error"]).
Proof. reflexivity. Qed.

Example decrypt_click_blank_data :
  @decryptBtn_click SampleImports.echoing
    (@mkWorld SampleImports.echoing (mkPage "hunter2" "" "" "") 0 [])
  = (Normal tt,
     @mkWorld SampleImports.echoing
       (mkPage "hunter2" "" "Please provide a password and the encrypted JSON payload."
               "error") 0
       [Wrote OutputTextContent
          "Please provide a password and the encrypted JSON payload.";
        Wrote OutputClassName "error"]).
Proof. reflexivity. Qed.

Section Proofs.
Context {imports : Imports}.

Lemma not_string_true (s : string) : not_string s = true <-> s = "".
Proof. destruct s; simpl; split; congruence. Qed.

Lemma not_string_false (s : string) : not_string s = false <-> s <> "".
Proof. destruct s; simpl; split; congruence. Qed.

Lemma guard_fires (p d : string) :
  p = "" \/ d = "" -> not_string p || not_string d = true.
Proof.
  intros [-> | ->]; simpl; [reflexivity |].
  destruct (not_string p); reflexivity.
Qed.

Lemma guard_passes (p d : string) :
  not_string p || not_string d = false <-> p <> "" /\ d <> "".
Proof.
  rewrite orb_false_iff, !not_string_false. tauto.
Qed.

(** The two handlers, path by path. *)

Lemma encryptBtn_click_guarded (w : World) :
  not_string (password_value (page w)) || not_string (data_value (page w)) = true ->
  encryptBtn_click w =
    (Normal tt,
     mkWorld (mkPage (password_value (page w)) (data_value (page w))
                     "Please provide a password and data to encrypt." "error")
             (wasm w)
             (journal w ++
               [Wrote OutputTextContent "Please provide a password and data to encrypt.";
                Wrote OutputClassName "error"])).
Proof.
  intros G. unfold encryptBtn_click, js_bind, dom_read; simpl. rewrite G.
  unfold dom_write, js_ret; simpl. by rewrite <- app_assoc.
Qed.

Lemma decryptBtn_click_guarded (w : World) :
  not_string (password_value (page w)) || not_string (data_value (page w)) = true ->
  decryptBtn_click w =
    (Normal tt,
     mkWorld (mkPage (password_value (page w)) (data_value (page w))
                     "Please provide a password and the encrypted JSON payload." "error")
             (wasm w)
             (journal w ++
               [Wrote OutputTextContent
                  "Please provide a password and the encrypted JSON payload.";
                Wrote OutputClassName "error"])).
Proof.
  intros G. unfold decryptBtn_click, js_bind, dom_read; simpl. rewrite G.
  unfold dom_write, js_ret; simpl. by rewrite <- app_assoc.
Qed.

Lemma encryptBtn_click_called (w : World) :
  not_string (password_value (page w)) || not_string (data_value (page w)) = false ->
  let bytes := TextEncoder_encode (data_value (page w)) in
  let call := CalledEncrypt bytes (password_value (page w)) in
  encryptBtn_click w =
    match encrypt_wrapper bytes (password_value (page w)) (wasm w) with
    | (Normal payload, m) =>
        (Normal tt,
         mkWorld (mkPage (password_value (page w)) (data_value (page w)) payload "")
                 m
                 (journal w ++
                   [call; Wrote OutputTextContent payload; Wrote OutputClassName ""]))
    | (Throw e, m) =>
        match ToString e with
        | Normal shown =>
            (Normal tt,
             mkWorld (mkPage (password_value (page w)) (data_value (page w))
                             ("Encryption failed: " +:+ shown) "error")
                     m
                     (journal w ++
                       [call; Wrote OutputTextContent ("Encryption failed: " +:+ shown);
                        Wrote OutputClassName "error"]))
        | Throw t => (Throw t, mkWorld (page w) m (journal w ++ [call]))
        end
    end.
Proof.
  intros G. unfold encryptBtn_click, js_bind, dom_read; simpl. rewrite G.
  unfold try_catch, js_bind, call_encrypt_wrapper.
  destruct (encrypt_wrapper _ _ _) as [[payload | e] m]; unfold dom_write; simpl;
    [by rewrite <- !app_assoc |].
  unfold template; simpl. destruct (ToString e) as [shown | t]; simpl;
    [by rewrite <- !app_assoc | reflexivity].
Qed.

Lemma decryptBtn_click_called (w : World) :
  not_string (password_value (page w)) || not_string (data_value (page w)) = false ->
  let call := CalledDecrypt (data_value (page w)) (password_value (page w)) in
  decryptBtn_click w =
    match decrypt_wrapper (data_value (page w)) (password_value (page w)) (wasm w) with
    | (Normal decryptedBytes, m) =>
        (Normal tt,
         mkWorld (mkPage (password_value (page w)) (data_value (page w))
                         (TextDecoder_decode decryptedBytes) "")
                 m
                 (journal w ++
                   [call; Wrote OutputTextContent (TextDecoder_decode decryptedBytes);
                    Wrote OutputClassName ""]))
    | (Throw e, m) =>
        match ToString e with
        | Normal shown =>
            (Normal tt,
             mkWorld (mkPage (password_value (page w)) (data_value (page w))
                             ("Decryption failed: " +:+ shown) "error")
                     m
                     (journal w ++
                       [call; Wrote OutputTextContent ("Decryption failed: " +:+ shown);
                        Wrote OutputClassName "error"]))
        | Throw t => (Throw t, mkWorld (page w) m (journal w ++ [call]))
        end
    end.
Proof.
  intros G. unfold decryptBtn_click, js_bind, dom_read; simpl. rewrite G.
  unfold try_catch, js_bind, call_decrypt_wrapper.
  destruct (decrypt_wrapper _ _ _) as [[decryptedBytes | e] m]; unfold dom_write; simpl;
    [by rewrite <- !app_assoc |].
  unfold template; simpl. destruct (ToString e) as [shown | t]; simpl;
    [by rewrite <- !app_assoc | reflexivity].
Qed.

Local Ltac framed :=
  split; [reflexivity | split; [reflexivity |]];
  eexists; split; [reflexivity | repeat constructor].

(** One click, whichever button: the inputs keep their values, and what is
    added to the journal never writes an input. *)
Lemma listener_frame (c : Click) (w : World) :
  password_value (page (snd (listener c w))) = password_value (page w) /\
  data_value (page (snd (listener c w))) = data_value (page w) /\
  exists new, journal (snd (listener c w)) = journal w ++ new /\
              Forall (fun ev => writes_input ev = false) new.
Proof.
  destruct (not_string (password_value (page w)) || not_string (data_value (page w)))
    eqn:G; destruct c; simpl.
  - rewrite (encryptBtn_click_guarded w G); simpl. framed.
  - rewrite (decryptBtn_click_guarded w G); simpl. framed.
  - rewrite (encryptBtn_click_called w G); simpl.
    destruct (encrypt_wrapper _ _ _) as [[payload | e] m];
      [| destruct (ToString e) as [shown | t]]; simpl; framed.
  - rewrite (decryptBtn_click_called w G); simpl.
    destruct (decrypt_wrapper _ _ _) as [[decryptedBytes | e] m];
      [| destruct (ToString e) as [shown | t]]; simpl; framed.
Qed.

(** C8. When the password field or the data field is the empty string, a
    click on either button ends normally with the handler's own message in
    the output element and the class "error", the module untouched and the
    journal extended by those two writes only, so neither export was
    invoked.  Conversely, whenever a click does invoke an export, both
    fields were non-empty and the export received them. *)
Theorem empty_field_never_reaches_engine (w : World) :
  (password_value (page w) = "" \/ data_value (page w) = "" ->
     encryptBtn_click w =
       (Normal tt,
        mkWorld (mkPage (password_value (page w)) (data_value (page w))
                        "Please provide a password and data to encrypt." "error")
                (wasm w)
                (journal w ++
                  [Wrote OutputTextContent "Please provide a password and data to encrypt.";
                   Wrote OutputClassName "error"])) /\
     decryptBtn_click w =
       (Normal tt,
        mkWorld (mkPage (password_value (page w)) (data_value (page w))
                        "Please provide a password and the encrypted JSON payload." "error")
                (wasm w)
                (journal w ++
                  [Wrote OutputTextContent
                     "Please provide a password and the encrypted JSON payload.";
                   Wrote OutputClassName "error"]))) /\
  (forall c new ev,
     journal (snd (listener c w)) = journal w ++ new ->
     In ev new -> is_call ev = true ->
     password_value (page w) <> "" /\ data_value (page w) <> "" /\
     ev = match c with
          | EncryptClick =>
              CalledEncrypt (TextEncoder_encode (data_value (page w)))
                            (password_value (page w))
          | DecryptClick =>
              CalledDecrypt (data_value (page w)) (password_value (page w))
          end).
Proof.
  split.
  - intros E. apply guard_fires in E. split.
    + by apply encryptBtn_click_guarded.
    + by apply decryptBtn_click_guarded.
  - intros c new ev J Hin Hcall.
    destruct (not_string (password_value (page w)) || not_string (data_value (page w)))
      eqn:G.
    + exfalso. destruct c; simpl in J.
      * rewrite (encryptBtn_click_guarded w G) in J; simpl in J.
        apply app_inv_head in J; subst new.
        destruct Hin as [<- | [<- | []]]; discriminate.
      * rewrite (decryptBtn_click_guarded w G) in J; simpl in J.
        apply app_inv_head in J; subst new.
        destruct Hin as [<- | [<- | []]]; discriminate.
    + apply guard_passes in G as G'. destruct G' as [Hp Hd].
      split; [exact Hp | split; [exact Hd |]].
      destruct c; simpl in J.
      * rewrite (encryptBtn_click_called w G) in J.
        destruct (encrypt_wrapper _ _ _) as [[payload | e] m];
          [| destruct (ToString e) as [shown | t]]; simpl in J;
          apply app_inv_head in J; subst new; simpl in Hin;
          intuition (subst; try discriminate; reflexivity).
      * rewrite (decryptBtn_click_called w G) in J.
        destruct (decrypt_wrapper _ _ _) as [[decryptedBytes | e] m];
          [| destruct (ToString e) as [shown | t]]; simpl in J;
          apply app_inv_head in J; subst new; simpl in Hin;
          intuition (subst; try discriminate; reflexivity).
Qed.

(** C10. Over any sequence of clicks, [passwordInput.value] and
    [dataInput.value] are what they were at the start, and every write the
    handlers performed went to [output.textContent] or [output.className]. *)
Theorem inputs_are_never_written (cs : list Click) (w : World) :
  password_value (page (clicks cs w)) = password_value (page w) /\
  data_value (page (clicks cs w)) = data_value (page w) /\
  exists new,
    journal (clicks cs w) = journal w ++ new /\
    forall k v, In (Wrote k v) new -> k = OutputTextContent \/ k = OutputClassName.
Proof.
  revert w. induction cs as [| c cs IH]; intros w; simpl.
  - split; [reflexivity | split; [reflexivity |]].
    exists []. rewrite app_nil_r. split; [reflexivity | intros k v []].
  - destruct (IH (snd (listener c w))) as (Hp & Hd & new2 & J2 & W2).
    destruct (listener_frame c w) as (Hp1 & Hd1 & new1 & J1 & W1).
    split; [congruence | split; [congruence |]].
    exists (new1 ++ new2). split.
    + by rewrite J2, J1, app_assoc.
    + intros k v Hin. apply in_app_or in Hin as [Hin | Hin]; [| by eauto].
      rewrite List.Forall_forall in W1. specialize (W1 _ Hin).
      destruct k; simpl in W1; try discriminate; auto.
Qed.

End Proofs.

(** The rejecting module on a page with a blank password, then with both
    fields filled in. *)
Lemma empty_field_never_reaches_engine_witness :
  (password_value (page SampleImports.blank_password) = "" \/
   data_value (page SampleImports.blank_password) = "") /\
  journal (snd (encryptBtn_click SampleImports.blank_password)) =
    [Wrote OutputTextContent "Please provide a password and data to encrypt.";
     Wrote OutputClassName "error"].
Proof.
  split; [left; reflexivity |].
  destruct (empty_field_never_reaches_engine SampleImports.blank_password)
    as [H _].
  destruct (H (or_introl eq_refl)) as [-> _]. reflexivity.
Defined.

End BindingProofs.

(** ** Properties of the engine *)

Module EngineProofs.
Import Engine.

Section Proofs.
Context {units : Units}.

(** Handles and the buffer memory. *)

Lemma read_at_length (bs : list bytes) (x : bytes) (rest : list bytes) :
  (bs ++ x :: rest) !! length bs = Some x.
Proof. by apply list_lookup_middle. Qed.

Lemma alter_at_length (f : bytes -> bytes) (bs : list bytes) (x : bytes)
      (rest : list bytes) :
  alter f (length bs) (bs ++ x :: rest) = bs ++ f x :: rest.
Proof.
  replace (length bs) with (length bs + 0) by lia.
  by rewrite alter_app_r.
Qed.

Lemma read_after_length (bs : list bytes) (x y : bytes) :
  (bs ++ [x; y]) !! S (length bs) = Some y.
Proof.
  replace (bs ++ [x; y]) with ((bs ++ [x]) ++ [y]) by by rewrite <- app_assoc.
  replace (S (length bs)) with (length (bs ++ [x]))
    by (rewrite length_app; simpl; lia).
  apply read_at_length.
Qed.

Lemma alter_after_length (f : bytes -> bytes) (bs : list bytes) (x y : bytes) :
  alter f (S (length bs)) (bs ++ [x; y]) = bs ++ [x; f y].
Proof.
  replace (bs ++ [x; y]) with ((bs ++ [x]) ++ [y]) by by rewrite <- app_assoc.
  replace (S (length bs)) with (length (bs ++ [x]))
    by (rewrite length_app; simpl; lia).
  rewrite alter_at_length. by rewrite <- app_assoc.
Qed.

Lemma length_snoc (bs : list bytes) (x : bytes) : length (bs ++ [x]) = S (length bs).
Proof. rewrite length_app; simpl; lia. Qed.

Lemma zeroize_zeroized (b : bytes) : zeroized (zeroize b).
Proof. apply Forall_replicate. reflexivity. Qed.

Lemma zeroize_idempotent (b : bytes) : zeroize (zeroize b) = zeroize b.
Proof. unfold zeroize. by rewrite length_replicate. Qed.

Lemma release_twice (h : nat) (s : State) :
  buffers (snd (perform (Release h) (snd (perform (Release h) s))))
    = buffers (snd (perform (Release h) s)).
Proof.
  simpl. rewrite list_alter_alter_eq.
  apply list_alter_ext; [| reflexivity]. intros b _. apply zeroize_idempotent.
Qed.

Local Ltac tidy :=
  simpl; unfold note; simpl; repeat rewrite <- app_assoc; simpl.

(** The interpreter and sequencing. *)
Lemma run_bind {A B : Type} (p : Prog Text A) (k : A -> Prog Text B) (s : State) :
  run (bind p k) s =
    match run p s with
    | (Ok a, s1) => run (k a) s1
    | (Err e, s1) => (Err e, s1)
    end.
Proof.
  revert s. induction p as [a | e | X c f IH]; intros s; simpl; try reflexivity.
  destruct (perform c s) as [x s1]. apply IH.
Qed.

(** The codec programs answer with [build] and [parse], and make the codec
    calls only. *)
Lemma run_build (v : Z) (params : CostParameters) (salt nonce ciphertext : bytes)
      (s : State) :
  run (build_program v params salt nonce ciphertext) s =
    (Ok (build v params salt nonce ciphertext),
     mkState (rng s) (buffers s)
             (trace s ++ build_trace v params salt nonce ciphertext)).
Proof.
  destruct s as [g bs tr]. unfold build_trace, build; simpl. unfold note; simpl.
  by rewrite <- !app_assoc.
Qed.

Lemma run_parse (text : Text) (s : State) :
  run (parse_program text) s =
    (parse text, mkState (rng s) (buffers s) (trace s ++ parse_trace text)).
Proof.
  destruct s as [g bs tr]. unfold parse_trace, parse; simpl.
  destruct (read_wire text) as [w |]; simpl; [| reflexivity].
  destruct (supported_version (wire_version w)); simpl; [| reflexivity].
  unfold note; simpl. rewrite <- !app_assoc; simpl.
  destruct (text_decode (wire_salt (wire_kdf_params w))) as [s0 |],
           (text_decode (wire_nonce w)) as [n0 |],
           (text_decode (wire_ciphertext w)) as [c0 |]; reflexivity.
Qed.

Lemma parse_trace_is_codec (text : Text) :
  Forall (fun ev => is_codec_event ev = true) (parse_trace text).
Proof.
  unfold parse_trace. destruct (read_wire text) as [w |];
    [destruct (supported_version (wire_version w)) |]; repeat constructor.
Qed.

(** Deriving a key with the password in a scoped buffer. *)
Lemma derive_in_scope (password salt : bytes) (params : CostParameters) (s : State) :
  let h := length (buffers s) in
  run (with_buffer password (fun pw => derive_key pw salt params)) s =
    match derive password salt params with
    | Ok k =>
        (Ok (S h),
         mkState (rng s) (buffers s ++ [zeroize password; k])
                 (trace s ++ [Acquired password h; BufferRead h password;
                              Derived password salt params (Ok k);
                              Acquired k (S h); Released h]))
    | Err e =>
        (Err e,
         mkState (rng s) (buffers s ++ [zeroize password])
                 (trace s ++ [Acquired password h; BufferRead h password;
                              Derived password salt params (Err e); Released h]))
    end.
Proof.
  destruct s as [g bs tr]; tidy.
  rewrite read_at_length; tidy.
  destruct (derive password salt params) as [k | e]; tidy.
  - by rewrite alter_at_length, length_snoc.
  - by rewrite alter_at_length.
Qed.

(** [encrypt], path by path: which draw or derivation fails decides the
    answer; the buffers acquired on the way are listed with their final
    contents, and the calls with their answers. *)
Lemma encrypt_paths (plaintext password : bytes) (s : State) :
  let h := length (buffers s) in
  encrypt plaintext password s =
    match random_bytes salt_len (rng s) with
    | (Err e, g1) =>
        (Err e, mkState g1 (buffers s) (trace s ++ [Drew salt_len (Err e)]))
    | (Ok salt, g1) =>
        match random_bytes nonce_len g1 with
        | (Err e, g2) =>
            (Err e,
             mkState g2 (buffers s)
               (trace s ++ [Drew salt_len (Ok salt); Drew nonce_len (Err e)]))
        | (Ok nonce, g2) =>
            match derive password salt fixed_params with
            | Err e =>
                (Err e,
                 mkState g2 (buffers s ++ [zeroize password])
                   (trace s ++
                    [Drew salt_len (Ok salt); Drew nonce_len (Ok nonce);
                     Acquired password h; BufferRead h password;
                     Derived password salt fixed_params (Err e); Released h]))
            | Ok k =>
                (Ok (build current_version fixed_params salt nonce
                       (seal k nonce plaintext)),
                 mkState g2 (buffers s ++ [zeroize password; zeroize k])
                   (trace s ++
                    [Drew salt_len (Ok salt); Drew nonce_len (Ok nonce);
                     Acquired password h; BufferRead h password;
                     Derived password salt fixed_params (Ok k);
                     Acquired k (S h); Released h;
                     BufferRead (S h) k;
                     Sealed k nonce plaintext (seal k nonce plaintext)] ++
                    build_trace current_version fixed_params salt nonce
                                (seal k nonce plaintext) ++
                    [Released (S h)]))
            end
        end
    end.
Proof.
  destruct s as [g bs tr]. unfold encrypt, encrypt_program, build_trace, build. tidy.
  destruct (random_bytes salt_len g) as [[salt | e] g1]; tidy; [| reflexivity].
  destruct (random_bytes nonce_len g1) as [[nonce | e] g2]; tidy; [| reflexivity].
  rewrite read_at_length; tidy.
  destruct (derive password salt fixed_params) as [k | e]; tidy;
    rewrite ?length_snoc, ?alter_at_length; tidy; [| reflexivity].
  rewrite !read_after_length; tidy. by rewrite alter_after_length.
Qed.

(** [decrypt], path by path. *)
Lemma decrypt_paths (text : Text) (password : bytes) (s : State) :
  let h := length (buffers s) in
  decrypt text password s =
    match parse text with
    | Err e =>
        (Err e, mkState (rng s) (buffers s) (trace s ++ parse_trace text))
    | Ok env =>
        match derive password (salt env) (kdf_params env) with
        | Err e =>
            (Err e,
             mkState (rng s) (buffers s ++ [zeroize password])
               (trace s ++ parse_trace text ++
                [Acquired password h; BufferRead h password;
                 Derived password (salt env) (kdf_params env) (Err e);
                 Released h]))
        | Ok k =>
            (match open k (nonce env) (ciphertext env) with
             | Some p => Ok p
             | None => Err AuthenticationFailed
             end,
             mkState (rng s) (buffers s ++ [zeroize password; zeroize k])
               (trace s ++ parse_trace text ++
                [Acquired password h; BufferRead h password;
                 Derived password (salt env) (kdf_params env) (Ok k);
                 Acquired k (S h); Released h;
                 BufferRead (S h) k;
                 Opened k (nonce env) (ciphertext env)
                        (open k (nonce env) (ciphertext env));
                 Released (S h)]))
        end
    end.
Proof.
  destruct s as [g bs tr].
  unfold decrypt, decrypt_program. rewrite run_bind, run_parse.
  destruct (parse text) as [env | e]; [| reflexivity].
  tidy. rewrite read_at_length; tidy.
  destruct (derive password (salt env) (kdf_params env)) as [k | e]; tidy;
    rewrite ?length_snoc, ?alter_at_length; tidy; [| reflexivity].
  rewrite !read_after_length; tidy.
  destruct (open k (nonce env) (ciphertext env)) as [p |]; tidy;
    by rewrite alter_after_length.
Qed.

(** The codec reads back what it built. *)
Lemma parse_build `{!UnitsInvert units} (params : CostParameters)
      (salt nonce ciphertext : bytes) :
  parse (build current_version params salt nonce ciphertext) =
    Ok (mkEnvelope current_version params salt nonce ciphertext).
Proof.
  unfold parse, build. rewrite read_write_wire; simpl.
  rewrite !text_decode_encode. by destruct params.
Qed.

(** [encrypt] answers with an envelope as soon as the host supplies the
    two draws and the derivation goes through. *)
Lemma encrypt_returns (plaintext password : bytes) (s : State)
      (salt nonce k : bytes) (g1 g2 : Rng) :
  random_bytes salt_len (rng s) = (Ok salt, g1) ->
  random_bytes nonce_len g1 = (Ok nonce, g2) ->
  derive password salt fixed_params = Ok k ->
  fst (encrypt plaintext password s) =
    Ok (build current_version fixed_params salt nonce (seal k nonce plaintext)).
Proof.
  intros D1 D2 K. rewrite encrypt_paths; simpl. by rewrite D1, D2, K.
Qed.

(** Whatever envelope [encrypt] answers with was built from the fixed
    parameters, the drawn salt and nonce, and the sealed plaintext. *)
Lemma encrypt_answer (plaintext password : bytes) (s s1 : State) (text : Text) :
  encrypt plaintext password s = (Ok text, s1) ->
  exists salt nonce k,
    derive password salt fixed_params = Ok k /\
    text = build current_version fixed_params salt nonce (seal k nonce plaintext).
Proof.
  rewrite encrypt_paths; simpl.
  destruct (random_bytes salt_len (rng s)) as [[salt | e] g1]; [| discriminate].
  destruct (random_bytes nonce_len g1) as [[nonce | e] g2]; [| discriminate].
  destruct (derive password salt fixed_params) as [k | e] eqn:K; [| discriminate].
  intros [= <- _]. eauto.
Qed.

Lemma decrypt_of_encrypt `{!UnitsInvert units}
      (plaintext password : bytes) (s s1 s2 : State) (text : Text) :
  encrypt plaintext password s = (Ok text, s1) ->
  fst (decrypt text password s2) = Ok plaintext.
Proof.
  intros E. apply encrypt_answer in E as (salt & nonce & k & K & ->).
  rewrite decrypt_paths; simpl. rewrite parse_build; simpl.
  by rewrite K, open_seal.
Qed.

(** C1. Whenever [encrypt P W] answers with an envelope, [decrypt] of that
    envelope with the same password, in whatever state it runs, answers
    with exactly [P]; and [encrypt P W] does answer with an envelope as
    soon as the host supplies the salt and the nonce and the derivation
    goes through. *)
Theorem round_trip `{!UnitsInvert units} (P W : bytes) :
  (forall (s s1 s2 : State) (text : Text),
     encrypt P W s = (Ok text, s1) ->
     fst (decrypt text W s2) = Ok P) /\
  (forall (s : State) (salt nonce k : bytes) (g1 g2 : Rng),
     random_bytes salt_len (rng s) = (Ok salt, g1) ->
     random_bytes nonce_len g1 = (Ok nonce, g2) ->
     derive W salt fixed_params = Ok k ->
     exists text, fst (encrypt P W s) = Ok text).
Proof.
  split.
  - intros s s1 s2 text. apply decrypt_of_encrypt.
  - intros s salt nonce k g1 g2 D1 D2 K. eexists.
    by apply (encrypt_returns P W s salt nonce k g1 g2).
Qed.

(** Decoding, on every branch and whatever the units answer, calls the
    codec only. *)
Lemma parse_calls_codec_only (text : Text) :
  every_call (fun X (c : Call Text X) => is_codec c = true) (parse_program text).
Proof.
  simpl. split; [reflexivity |]. intros [w |]; simpl; [| exact I].
  destruct (supported_version (wire_version w)); simpl; [| exact I].
  split; [reflexivity |]. intros s0. split; [reflexivity |]. intros n0.
  split; [reflexivity |]. intros c0.
  destruct s0, n0, c0; exact I.
Qed.

(** C5. An envelope text that has the structure of the record but names a
    version this build does not understand makes [decrypt] fail with
    [UnsupportedVersion] after one call only, the structural reading of the
    text: no randomness was drawn, no buffer acquired, no key derived, the
    cipher not called.  This is so of the program itself, whatever the
    units: its first call is the structural reading, and on an answer with
    an unsupported version it fails there and then.  Decoding, on every
    branch and whatever the units answer, calls nothing but the codec; and
    when it fails, whatever the error, [decrypt] fails with that error
    having made codec calls only. *)
Theorem unsupported_version_fails_before_derivation
        (text : Text) (w : Wire) (password : bytes) (s : State) :
  read_wire text = Some w ->
  supported_version (wire_version w) = false ->
  decrypt text password s =
    (Err UnsupportedVersion,
     mkState (rng s) (buffers s) (trace s ++ [WireRead text (Some w)])) /\
  (exists k : option Wire -> Prog Text bytes,
     decrypt_program text password = Do (ReadWire text) k /\
     forall w', supported_version (wire_version w') = false ->
                k (Some w') = Fail UnsupportedVersion) /\
  (forall text', every_call (fun X (c : Call Text X) => is_codec c = true) (parse_program text')) /\
  (forall text' e,
     fst (run (parse_program text') s) = Err e ->
     exists done,
       decrypt text' password s
         = (Err e, mkState (rng s) (buffers s) (trace s ++ done)) /\
       Forall (fun ev => is_codec_event ev = true) done).
Proof.
  intros R V. split; [| split; [| split]].
  - rewrite decrypt_paths; simpl. unfold parse, parse_trace. by rewrite R, V.
  - eexists. split; [reflexivity |]. intros w' V'. simpl. by rewrite V'.
  - apply parse_calls_codec_only.
  - intros text' e Hp. rewrite run_parse in Hp; simpl in Hp.
    exists (parse_trace text'). split; [| apply parse_trace_is_codec].
    rewrite decrypt_paths; simpl. by rewrite Hp.
Qed.

(** The discipline, path by path. *)

Local Ltac among :=
  solve [simpl; repeat (first [left; reflexivity | right])].

Local Ltac each_event H :=
  simpl in H;
  repeat match type of H with
         | _ \/ _ => destruct H as [H | H]
         | False => destruct H
         end;
  try discriminate H; try (injection H as; subst).

Lemma discipline_without_secrets (password : bytes) (final : list bytes)
      (done : list Event) :
  Forall (fun ev => touches_secrets ev = false) done ->
  buffer_discipline password final done.
Proof.
  intros B. rewrite List.Forall_forall in B.
  unfold buffer_discipline.
  split; [| split; [| split; [| split]]]; intros * H;
    apply B in H; simpl in H; discriminate H.
Qed.

Lemma discipline_when_derivation_fails
      (password salt : bytes) (params : CostParameters) (e : Error)
      (bs : list bytes) (before : list Event) :
  Forall (fun ev => touches_secrets ev = false) before ->
  buffer_discipline password (bs ++ [zeroize password])
    (before ++ [Acquired password (length bs); BufferRead (length bs) password;
                Derived password salt params (Err e); Released (length bs)]).
Proof.
  intros B. rewrite List.Forall_forall in B.
  unfold buffer_discipline.
  split; [| split; [| split; [| split]]]; intros * H;
    (apply in_app_or in H as [H | H];
     [apply B in H; simpl in H; discriminate H |]);
    each_event H.
  - split; [apply in_or_app; right; among | apply read_at_length].
  - split; [reflexivity |].
    exists (length bs). split; apply in_or_app; right; among.
Qed.

Lemma discipline_when_key_derived
      (password salt : bytes) (params : CostParameters) (k : bytes)
      (bs : list bytes) (before after : list Event) (cipher : Event) :
  Forall (fun ev => touches_secrets ev = false) before ->
  Forall (fun ev => touches_secrets ev = false) after ->
  (exists n p c, cipher = Sealed k n p c) \/ (exists n c a, cipher = Opened k n c a) ->
  buffer_discipline password (bs ++ [zeroize password; zeroize k])
    (before ++
     [Acquired password (length bs); BufferRead (length bs) password;
      Derived password salt params (Ok k);
      Acquired k (S (length bs)); Released (length bs);
      BufferRead (S (length bs)) k; cipher] ++
     after ++ [Released (S (length bs))]).
Proof.
  intros B A C. rewrite List.Forall_forall in B, A.
  assert (inside : forall ev,
            In ev [Acquired password (length bs); BufferRead (length bs) password;
                   Acquired k (S (length bs)); Released (length bs);
                   BufferRead (S (length bs)) k; Released (S (length bs))] ->
            In ev (before ++
                   [Acquired password (length bs); BufferRead (length bs) password;
                    Derived password salt params (Ok k);
                    Acquired k (S (length bs)); Released (length bs);
                    BufferRead (S (length bs)) k; cipher] ++
                   after ++ [Released (S (length bs))])).
  { intros ev H. apply in_or_app. right.
    each_event H; subst; simpl; try among.
    do 7 right. apply in_or_app. right. among. }
  unfold buffer_discipline.
  split; [| split; [| split; [| split]]]; intros * H;
    (apply in_app_or in H as [H | H];
     [apply B in H; simpl in H; discriminate H |]);
    (apply in_app_or in H as [H | H];
     [| apply in_app_or in H as [H | H];
        [apply A in H; simpl in H; discriminate H | each_event H]]);
    simpl in H;
    repeat match type of H with
           | _ \/ _ => destruct H as [H | H]
           | False => destruct H
           end;
    try (destruct C as [(n0 & p0 & c0 & C) | (n0 & c0 & a0 & C)]; subst cipher);
    try discriminate H; try (injection H as; subst).
  all: try solve [split; [apply inside; among | apply read_at_length]].
  all: try solve [split; [apply inside; among | apply read_after_length]].
  all: try solve [split; [reflexivity |];
                  exists (length bs); split; apply inside; among].
  all: try solve [exists (S (length bs)); split; apply inside; among].
  all: try solve [exists (S (length bs)); apply inside; among].
Qed.

Local Ltac harmless :=
  repeat constructor.

Local Ltac quiet :=
  split; [by rewrite app_nil_r |];
  split; [constructor |];
  split; [reflexivity |];
  split; [apply discipline_without_secrets; first [assumption | harmless]
         | discriminate].

(** C7. On every path through [encrypt] and through [decrypt], whatever
    the answer or the error: the buffer memory ends as it was, followed by
    the buffers this operation acquired, every byte of which is zero; what
    was acquired was released; the derivation took the password, and the
    cipher the derived key, out of a Secure Buffer that held it, and every
    key the derivation answered with went into one.  When the operation
    answers, the buffers it leaves are exactly two: the zeroized password
    and the zeroized derived key. *)
Theorem sensitive_buffers_zeroized_on_every_path
        (plaintext password : bytes) (text : Text) (s : State) :
  (exists new done,
     buffers (snd (encrypt plaintext password s)) = buffers s ++ new /\
     all_zeroized new /\
     trace (snd (encrypt plaintext password s)) = trace s ++ done /\
     buffer_discipline password (buffers (snd (encrypt plaintext password s))) done /\
     (forall envelope,
        fst (encrypt plaintext password s) = Ok envelope ->
        exists salt k,
          derive password salt fixed_params = Ok k /\
          new = [zeroize password; zeroize k])) /\
  (exists new done,
     buffers (snd (decrypt text password s)) = buffers s ++ new /\
     all_zeroized new /\
     trace (snd (decrypt text password s)) = trace s ++ done /\
     buffer_discipline password (buffers (snd (decrypt text password s))) done /\
     (forall answer,
        fst (decrypt text password s) = Ok answer ->
        exists env k,
          parse text = Ok env /\
          derive password (salt env) (kdf_params env) = Ok k /\
          new = [zeroize password; zeroize k])).
Proof.
  split.
  - rewrite encrypt_paths; simpl.
    destruct (random_bytes salt_len (rng s)) as [[salt | e] g1]; simpl.
    2: { exists [], [Drew salt_len (Err e)]. quiet. }
    destruct (random_bytes nonce_len g1) as [[nonce | e] g2]; simpl.
    2: { exists [], [Drew salt_len (Ok salt); Drew nonce_len (Err e)]. quiet. }
    destruct (derive password salt fixed_params) as [k | e] eqn:K; simpl.
    + exists [zeroize password; zeroize k]. eexists.
      split; [reflexivity |].
      split; [repeat constructor; apply zeroize_zeroized |].
      split; [reflexivity |]. split; [| eauto].
      apply (discipline_when_key_derived password salt fixed_params k (buffers s)
               [Drew salt_len (Ok salt); Drew nonce_len (Ok nonce)]
               (build_trace current_version fixed_params salt nonce
                            (seal k nonce plaintext))
               (Sealed k nonce plaintext (seal k nonce plaintext)));
        [harmless | unfold build_trace; harmless | left; eauto].
    + exists [zeroize password]. eexists.
      split; [reflexivity |].
      split; [repeat constructor; apply zeroize_zeroized |].
      split; [reflexivity |]. split; [| discriminate].
      apply (discipline_when_derivation_fails password salt fixed_params e (buffers s)
               [Drew salt_len (Ok salt); Drew nonce_len (Ok nonce)]).
      harmless.
  - assert (Q : Forall (fun ev => touches_secrets ev = false) (parse_trace text)).
    { unfold parse_trace. destruct (read_wire text) as [w |];
        [destruct (supported_version (wire_version w)) |]; harmless. }
    rewrite decrypt_paths; simpl.
    destruct (parse text) as [env | e]; simpl.
    2: { exists [], (parse_trace text). quiet. }
    destruct (derive password (salt env) (kdf_params env)) as [k | e] eqn:K; simpl.
    + exists [zeroize password; zeroize k]. eexists.
      split; [reflexivity |].
      split; [repeat constructor; apply zeroize_zeroized |].
      split; [reflexivity |]. split; [| eauto].
      apply (discipline_when_key_derived password (salt env) (kdf_params env) k
               (buffers s) (parse_trace text) []
               (Opened k (nonce env) (ciphertext env)
                       (open k (nonce env) (ciphertext env))));
        [exact Q | constructor | right; eauto].
    + exists [zeroize password]. eexists.
      split; [reflexivity |].
      split; [repeat constructor; apply zeroize_zeroized |].
      split; [reflexivity |]. split; [| discriminate].
      by apply (discipline_when_derivation_fails password (salt env) (kdf_params env)
                  e (buffers s) (parse_trace text)).
Qed.

(** When the tag does not verify, [decrypt] answers [AuthenticationFailed]
    and nothing else: an answer is either plaintext or an error. *)
Lemma unverified_tag_is_rejected (text : Text) (password k : bytes)
      (env : Envelope) (s : State) :
  parse text = Ok env ->
  derive password (salt env) (kdf_params env) = Ok k ->
  open k (nonce env) (ciphertext env) = None ->
  fst (decrypt text password s) = Err AuthenticationFailed.
Proof.
  intros Hp K O. rewrite decrypt_paths; simpl. by rewrite Hp, K, O.
Qed.

(** The envelope records the format version and the fixed parameters. *)
Lemma envelope_fields `{!UnitsInvert units}
      (plaintext password : bytes) (s s1 : State) (text : Text) :
  encrypt plaintext password s = (Ok text, s1) ->
  exists env,
    parse text = Ok env /\ version env = 1%Z /\
    memory_kib (kdf_params env) = 262144%Z /\
    iterations (kdf_params env) = 4%Z /\
    parallelism (kdf_params env) = 8%Z.
Proof.
  intros E. apply encrypt_answer in E as (salt & nonce & k & _ & ->).
  rewrite parse_build. eexists; split; [reflexivity |]. by simpl.
Qed.

(** Envelopes built over different salts, or over different nonces, are
    different texts. *)
Lemma build_injective `{!UnitsInvert units} (params : CostParameters)
      (salt1 nonce1 c1 salt2 nonce2 c2 : bytes) :
  build current_version params salt1 nonce1 c1
    = build current_version params salt2 nonce2 c2 ->
  salt1 = salt2 /\ nonce1 = nonce2 /\ c1 = c2.
Proof.
  intros E. apply (f_equal parse) in E. rewrite !parse_build in E.
  by injection E.
Qed.

End Proofs.

(** The sample units keep the promises of [UnitsInvert]. *)

Lemma strip_prefix_app (p l : bytes) : SampleUnits.strip_prefix p (p ++ l) = Some l.
Proof.
  induction p as [| x p IH]; simpl; [reflexivity |].
  destruct (Byte.eqb x x) eqn:E; [exact IH |].
  exfalso. rewrite Byte.byte_dec_lb in E; [discriminate | reflexivity].
Qed.

#[export] Instance keyed_inverts : UnitsInvert SampleUnits.keyed.
Proof.
  split; simpl.
  - intros key nonce plaintext. rewrite app_assoc. apply strip_prefix_app.
  - intros b. by rewrite list_byte_of_string_of_list_byte.
  - reflexivity.
Qed.

#[export] Instance transparent_inverts : UnitsInvert SampleUnits.transparent.
Proof.
  split; simpl.
  - reflexivity.
  - intros b. by rewrite list_byte_of_string_of_list_byte.
  - reflexivity.
Qed.

(** The facade over the sample units, run on the scenario of section 8. *)

Lemma round_trip_witness :
  exists text s1,
    @encrypt SampleUnits.keyed SampleUnits.hello_vault SampleUnits.staple
             SampleUnits.fresh_keyed = (Ok text, s1) /\
    fst (decrypt text SampleUnits.staple s1) = Ok SampleUnits.hello_vault.
Proof.
  do 2 eexists. split; [reflexivity |].
  eapply (proj1 (@round_trip SampleUnits.keyed keyed_inverts
                   SampleUnits.hello_vault SampleUnits.staple)
                SampleUnits.fresh_keyed).
  reflexivity.
Defined.

Lemma unsupported_version_fails_before_derivation_witness :
  supported_version 2 = false /\
  @decrypt SampleUnits.keyed SampleUnits.from_the_future SampleUnits.staple
           SampleUnits.fresh_keyed
    = (Err UnsupportedVersion,
       @mkState SampleUnits.keyed SampleUnits.tape32 []
         [WireRead SampleUnits.from_the_future (Some SampleUnits.future_wire)]).
Proof.
  split; [reflexivity |].
  apply (@unsupported_version_fails_before_derivation SampleUnits.keyed
           SampleUnits.from_the_future SampleUnits.future_wire
           SampleUnits.staple SampleUnits.fresh_keyed);
    reflexivity.
Defined.

Example encrypt_run :
  let s1 := snd (@encrypt SampleUnits.keyed SampleUnits.hello_vault SampleUnits.staple
                          SampleUnits.fresh_keyed) in
  rng s1 = list_byte_of_string "...." /\
  buffers s1 = [replicate 28 x00; replicate 32 x00] /\
  List.filter touches_secrets (trace s1)
    = [Acquired SampleUnits.staple 0;
       BufferRead 0 SampleUnits.staple;
       Derived SampleUnits.staple (list_byte_of_string "0123456789abcdef")
               fixed_params
               (Ok (list_byte_of_string "correct horse battery staple0123"));
       Acquired (list_byte_of_string "correct horse battery staple0123") 1;
       Released 0;
       BufferRead 1 (list_byte_of_string "correct horse battery staple0123");
       Sealed (list_byte_of_string "correct horse battery staple0123")
              (list_byte_of_string "ABCDEFGHIJKL") SampleUnits.hello_vault
              (list_byte_of_string
                 "correct horse battery staple0123ABCDEFGHIJKLhello vault");
       Released 1].
Proof. repeat split. Qed.

Example encrypt_without_entropy :
  @encrypt SampleUnits.keyed SampleUnits.hello_vault SampleUnits.staple
           (@mkState SampleUnits.keyed [] [] [])
  = (Err EntropyUnavailable,
     @mkState SampleUnits.keyed [] [] [Drew 16 (Err EntropyUnavailable)]).
Proof. reflexivity. Qed.

Example decrypt_without_memory :
  let r := @decrypt SampleUnits.keyed SampleUnits.too_costly SampleUnits.staple
                    SampleUnits.fresh_keyed in
  fst r = Err DerivationResourceExhausted /\
  buffers (snd r) = [replicate 28 x00] /\
  List.filter touches_secrets (trace (snd r))
    = [Acquired SampleUnits.staple 0;
       BufferRead 0 SampleUnits.staple;
       Derived SampleUnits.staple (list_byte_of_string "0123456789abcdef")
               (mkCost (2 * 1024 * 1024) 4 8)
               (Err DerivationResourceExhausted);
       Released 0].
Proof. repeat split. Qed.

(** With the keyed sample cipher the wrong password is turned away; with
    the transparent one, which keeps every promise of [UnitsInvert] as
    well, it is let through.  What the design document asks of the units
    one by one therefore does not settle what a wrong password or a
    tampered field does: that rests on the cipher and the derivation
    themselves. *)
Lemma keyed_sample_rejects_wrong_password :
  exists text s1,
    @encrypt SampleUnits.keyed SampleUnits.hello_vault SampleUnits.staple
             SampleUnits.fresh_keyed = (Ok text, s1) /\
    fst (decrypt text SampleUnits.wrong s1) = Err AuthenticationFailed.
Proof. do 2 eexists. split; reflexivity. Qed.

Lemma transparent_sample_accepts_wrong_password :
  exists text s1,
    @encrypt SampleUnits.transparent SampleUnits.hello_vault SampleUnits.staple
             SampleUnits.fresh_transparent = (Ok text, s1) /\
    fst (decrypt text SampleUnits.wrong s1) = Ok SampleUnits.hello_vault.
Proof. do 2 eexists. split; reflexivity. Qed.

End EngineProofs.

(** ** More about the handlers: outcomes, sessions, and a page with holes *)

Module StartupProofs.
Import JS Binding Startup BindingProofs.

Section Proofs.
Context {imports : Imports}.

(** X1. With both fields filled in, a result of the export is shown as it
    is (the payload, respectively the decoded bytes) and the class is
    cleared, whatever the output element showed before. *)
Theorem result_is_shown_and_class_cleared (w : World) :
  password_value (page w) <> "" -> data_value (page w) <> "" ->
  (forall payload m,
     encrypt_wrapper (TextEncoder_encode (data_value (page w)))
                     (password_value (page w)) (wasm w) = (Normal payload, m) ->
     fst (encryptBtn_click w) = Normal tt /\
     page (snd (encryptBtn_click w))
       = mkPage (password_value (page w)) (data_value (page w)) payload "" /\
     wasm (snd (encryptBtn_click w)) = m) /\
  (forall decryptedBytes m,
     decrypt_wrapper (data_value (page w)) (password_value (page w)) (wasm w)
       = (Normal decryptedBytes, m) ->
     fst (decryptBtn_click w) = Normal tt /\
     page (snd (decryptBtn_click w))
       = mkPage (password_value (page w)) (data_value (page w))
                (TextDecoder_decode decryptedBytes) "" /\
     wasm (snd (decryptBtn_click w)) = m).
Proof.
  intros Hp Hd. assert (G := proj2 (guard_passes _ _) (conj Hp Hd)). split.
  - intros payload m E. rewrite (encryptBtn_click_called w G); simpl. by rewrite E.
  - intros bytes m E. rewrite (decryptBtn_click_called w G); simpl. by rewrite E.
Qed.

(** X2. A click that ends normally leaves the class of the output element
    either empty or "error", and empty exactly when both fields were filled
    in and the export returned; a click that throws leaves the whole page
    as it was. *)
Theorem class_is_error_unless_export_returned (c : Click) (w : World) :
  (fst (listener c w) = Normal tt ->
   (output_className (page (snd (listener c w))) = "" \/
    output_className (page (snd (listener c w))) = "error") /\
   (output_className (page (snd (listener c w))) = "" <->
    password_value (page w) <> "" /\ data_value (page w) <> "" /\ returns c w)) /\
  (forall t, fst (listener c w) = Throw t -> page (snd (listener c w)) = page w).
Proof.
  destruct (not_string (password_value (page w)) || not_string (data_value (page w)))
    eqn:G.
  - assert (N : ~ (password_value (page w) <> "" /\ data_value (page w) <> "")).
    { intros H. apply guard_passes in H. congruence. }
    destruct c; simpl;
      [rewrite (encryptBtn_click_guarded w G) | rewrite (decryptBtn_click_guarded w G)];
      simpl; (split; [| discriminate]); intros _;
      (split; [by right | split; [discriminate | tauto]]).
  - apply guard_passes in G as [Hp Hd].
    assert (G := proj2 (guard_passes _ _) (conj Hp Hd)).
    destruct c; simpl.
    + rewrite (encryptBtn_click_called w G).
      destruct (encrypt_wrapper _ _ _) as [[payload | e] m];
        [| destruct (ToString e) as [shown | t0]]; simpl;
        (split; [| try discriminate; try reflexivity]).
      * intros _. split; [by left |]. split; [| reflexivity]. intros _. eauto.
      * intros _. split; [by right |]. split; [discriminate |].
        intros (_ & _ & payload & m' & [=]).
      * discriminate.
    + rewrite (decryptBtn_click_called w G).
      destruct (decrypt_wrapper _ _ _) as [[bytes | e] m];
        [| destruct (ToString e) as [shown | t0]]; simpl;
        (split; [| try discriminate; try reflexivity]).
      * intros _. split; [by left |]. split; [| reflexivity]. intros _. eauto.
      * intros _. split; [by right |]. split; [discriminate |].
        intros (_ & _ & bytes & m' & [=]).
      * discriminate.
Qed.

(** One click in the journal: at most one call, then either the text and
    the class, or nothing more. *)
Lemma listener_journal (c : Click) (w : World) :
  exists calls writes,
    journal (snd (listener c w)) = journal w ++ calls ++ writes /\
    calls = (if not_string (password_value (page w)) || not_string (data_value (page w))
             then []
             else [match c with
                   | EncryptClick =>
                       CalledEncrypt (TextEncoder_encode (data_value (page w)))
                                     (password_value (page w))
                   | DecryptClick =>
                       CalledDecrypt (data_value (page w)) (password_value (page w))
                   end]) /\
    ((fst (listener c w) = Normal tt /\
      writes = [Wrote OutputTextContent (output_textContent (page (snd (listener c w))));
                Wrote OutputClassName (output_className (page (snd (listener c w))))]) \/
     (exists t, fst (listener c w) = Throw t /\ writes = [] /\
                page (snd (listener c w)) = page w)).
Proof.
  destruct (not_string (password_value (page w)) || not_string (data_value (page w)))
    eqn:G; destruct c; simpl.
  - rewrite (encryptBtn_click_guarded w G); simpl.
    eexists [], _. split; [reflexivity | split; [reflexivity | by left]].
  - rewrite (decryptBtn_click_guarded w G); simpl.
    eexists [], _. split; [reflexivity | split; [reflexivity | by left]].
  - rewrite (encryptBtn_click_called w G).
    destruct (encrypt_wrapper _ _ _) as [[payload | e] m];
      [| destruct (ToString e) as [shown | t]]; simpl.
    + eexists [_], _. split; [reflexivity | split; [reflexivity | by left]].
    + eexists [_], _. split; [reflexivity | split; [reflexivity | by left]].
    + exists [CalledEncrypt (TextEncoder_encode (data_value (page w)))
                             (password_value (page w))], [].
      split; [reflexivity | split; [reflexivity | right; by exists t]].
  - rewrite (decryptBtn_click_called w G).
    destruct (decrypt_wrapper _ _ _) as [[bytes | e] m];
      [| destruct (ToString e) as [shown | t]]; simpl.
    + eexists [_], _. split; [reflexivity | split; [reflexivity | by left]].
    + eexists [_], _. split; [reflexivity | split; [reflexivity | by left]].
    + exists [CalledDecrypt (data_value (page w)) (password_value (page w))], [].
      split; [reflexivity | split; [reflexivity | right; by exists t]].
Qed.

(** X3. Every click invokes an export at most once and, if it ends
    normally, then sets [output.textContent] and [output.className], in
    this order, to the values the page then shows; a click that throws has
    written nothing.  A click does nothing else. *)
Theorem click_always_rewrites_output (c : Click) (w : World) :
  exists calls writes,
    journal (snd (listener c w)) = journal w ++ calls ++ writes /\
    (calls = [] \/ exists ev, calls = [ev] /\ is_call ev = true) /\
    ((fst (listener c w) = Normal tt /\
      writes = [Wrote OutputTextContent (output_textContent (page (snd (listener c w))));
                Wrote OutputClassName (output_className (page (snd (listener c w))))]) \/
     (exists t, fst (listener c w) = Throw t /\ writes = [] /\
                page (snd (listener c w)) = page w)).
Proof.
  destruct (listener_journal c w) as (calls & writes & J & K & W).
  exists calls, writes. split; [exact J | split; [| exact W]].
  rewrite K. destruct (_ || _); [by left | right].
  eexists; split; [reflexivity |]. by destruct c.
Qed.

(** X4. A handler never reads the output element: on two pages with the
    same field values and the same module state, whatever their output
    elements show, a click ends the same way and leaves the same module
    state; if it ends normally it leaves the same page, and if it throws
    it leaves each page as it was. *)
Theorem click_ignores_previous_output (c : Click) (w1 w2 : World) :
  password_value (page w1) = password_value (page w2) ->
  data_value (page w1) = data_value (page w2) ->
  wasm w1 = wasm w2 ->
  fst (listener c w1) = fst (listener c w2) /\
  wasm (snd (listener c w1)) = wasm (snd (listener c w2)) /\
  (fst (listener c w1) = Normal tt ->
   page (snd (listener c w1)) = page (snd (listener c w2))) /\
  (forall t, fst (listener c w1) = Throw t ->
   page (snd (listener c w1)) = page w1 /\ page (snd (listener c w2)) = page w2).
Proof.
  intros Hp Hd Hm.
  destruct (not_string (password_value (page w1)) || not_string (data_value (page w1)))
    eqn:G1.
  - assert (G2 := G1). rewrite Hp, Hd in G2. destruct c; simpl.
    + rewrite (encryptBtn_click_guarded w1 G1), (encryptBtn_click_guarded w2 G2); simpl.
      rewrite Hp, Hd, Hm. repeat split; discriminate.
    + rewrite (decryptBtn_click_guarded w1 G1), (decryptBtn_click_guarded w2 G2); simpl.
      rewrite Hp, Hd, Hm. repeat split; discriminate.
  - assert (G2 := G1). rewrite Hp, Hd in G2. destruct c; simpl.
    + rewrite (encryptBtn_click_called w1 G1), (encryptBtn_click_called w2 G2).
      rewrite Hp, Hd, Hm.
      destruct (encrypt_wrapper _ _ _) as [[payload | e] m];
        [| destruct (ToString e) as [shown | t0]]; simpl;
        repeat split; discriminate.
    + rewrite (decryptBtn_click_called w1 G1), (decryptBtn_click_called w2 G2).
      rewrite Hp, Hd, Hm.
      destruct (decrypt_wrapper _ _ _) as [[bytes | e] m];
        [| destruct (ToString e) as [shown | t0]]; simpl;
        repeat split; discriminate.
Qed.

Lemma count_calls_app (j1 j2 : list Effect) :
  count_calls (j1 ++ j2) = count_calls j1 + count_calls j2.
Proof. unfold count_calls. by rewrite List.filter_app, length_app. Qed.

Lemma clicks_app (cs1 cs2 : list Click) (w : World) :
  clicks (cs1 ++ cs2) w = clicks cs2 (clicks cs1 w).
Proof. revert w. induction cs1 as [| c cs1 IH]; intros w; simpl; [reflexivity | apply IH]. Qed.

Lemma clicks_keep_inputs (cs : list Click) (w : World) :
  password_value (page (clicks cs w)) = password_value (page w) /\
  data_value (page (clicks cs w)) = data_value (page w).
Proof.
  revert w. induction cs as [| c cs IH]; intros w; simpl; [by split |].
  destruct (IH (snd (listener c w))) as [Hp Hd].
  destruct (listener_frame c w) as (Hp1 & Hd1 & _). split; congruence.
Qed.

(** X5. Over a session the exports are invoked once per click when both
    fields are filled in, and never when one of them is empty: the fields
    never change, so the first click decides for all of them. *)
Theorem session_calls_once_per_click (cs : list Click) (w : World) :
  count_calls (journal (clicks cs w)) =
    count_calls (journal w) +
    (if not_string (password_value (page w)) || not_string (data_value (page w))
     then 0 else length cs).
Proof.
  revert w. induction cs as [| c cs IH]; intros w; simpl.
  - destruct (_ || _); lia.
  - rewrite IH. destruct (listener_frame c w) as (Hp & Hd & _). rewrite Hp, Hd.
    destruct (listener_journal c w) as (calls & writes & J & K & W).
    rewrite J, !count_calls_app, K.
    assert (count_calls writes = 0) as ->
      by (destruct W as [[_ ->] | (t & _ & -> & _)]; reflexivity).
    destruct (_ || _); destruct c; unfold count_calls; simpl; lia.
Qed.

(** X6. While a field is empty, any number of clicks leaves the module
    as it was, and the output element shows the message of the last button
    clicked, with class "error". *)
Theorem blank_field_session (cs : list Click) (c : Click) (w : World) :
  password_value (page w) = "" \/ data_value (page w) = "" ->
  wasm (clicks (cs ++ [c]) w) = wasm w /\
  page (clicks (cs ++ [c]) w)
    = mkPage (password_value (page w)) (data_value (page w)) (guard_message c) "error".
Proof.
  intros E.
  assert (M : forall cs' w', password_value (page w') = password_value (page w) ->
                             data_value (page w') = data_value (page w) ->
                             wasm (clicks cs' w') = wasm w').
  { induction cs' as [| c' cs' IH]; intros w' Hp Hd; simpl; [reflexivity |].
    destruct (listener_frame c' w') as (Hp1 & Hd1 & _).
    rewrite IH by congruence.
    assert (G : not_string (password_value (page w'))
                || not_string (data_value (page w')) = true)
      by (apply guard_fires; rewrite Hp, Hd; exact E).
    destruct c'; simpl;
      [by rewrite (encryptBtn_click_guarded w' G)
      | by rewrite (decryptBtn_click_guarded w' G)]. }
  rewrite clicks_app; simpl.
  destruct (clicks_keep_inputs cs w) as [Hp Hd].
  assert (G : not_string (password_value (page (clicks cs w)))
              || not_string (data_value (page (clicks cs w))) = true)
    by (apply guard_fires; rewrite Hp, Hd; exact E).
  destruct c; simpl;
    [rewrite (encryptBtn_click_guarded _ G) | rewrite (decryptBtn_click_guarded _ G)];
    simpl; rewrite Hp, Hd; (split; [by apply M | reflexivity]).
Qed.

(** X7. Encrypting, copying the output into the data field and decrypting
    with the same password: if the export gave a non-empty payload and
    decryption of it gives back the encoded data, the output element ends
    up showing the decoding of those bytes, with the class cleared; if the
    payload was the empty string, the second click never reaches the
    export and shows the missing-input message instead. *)
Theorem encrypt_paste_decrypt (w : World) (payload : string) (m m' : Wasm)
        (decryptedBytes : list byte) :
  password_value (page w) <> "" -> data_value (page w) <> "" ->
  encrypt_wrapper (TextEncoder_encode (data_value (page w)))
                  (password_value (page w)) (wasm w) = (Normal payload, m) ->
  let w1 := paste_output (snd (encryptBtn_click w)) in
  (payload <> "" ->
   decrypt_wrapper payload (password_value (page w)) m = (Normal decryptedBytes, m') ->
   page (snd (decryptBtn_click w1))
     = mkPage (password_value (page w)) payload (TextDecoder_decode decryptedBytes) "" /\
   wasm (snd (decryptBtn_click w1)) = m') /\
  (payload = "" ->
   page (snd (decryptBtn_click w1))
     = mkPage (password_value (page w)) ""
              "Please provide a password and the encrypted JSON payload." "error" /\
   wasm (snd (decryptBtn_click w1)) = m).
Proof.
  intros Hp Hd E w1.
  assert (G := proj2 (guard_passes _ _) (conj Hp Hd)).
  assert (W1 : page w1 = mkPage (password_value (page w)) payload payload "" /\
               wasm w1 = m).
  { unfold w1, paste_output. rewrite (encryptBtn_click_called w G); simpl.
    by rewrite E. }
  destruct W1 as [P1 M1]. split.
  - intros Hne D.
    assert (G1 : not_string (password_value (page w1))
                 || not_string (data_value (page w1)) = false)
      by (apply guard_passes; rewrite P1; simpl; by split).
    rewrite (decryptBtn_click_called w1 G1). rewrite P1, M1; simpl. by rewrite D.
  - intros ->.
    assert (G1 : not_string (password_value (page w1))
                 || not_string (data_value (page w1)) = true)
      by (apply guard_fires; rewrite P1; simpl; by right).
    rewrite (decryptBtn_click_guarded w1 G1). rewrite P1, M1; simpl. by split.
Qed.

(** The listeners on a page with holes. *)

Lemma null_read_is_TypeError (prop : string) : is_TypeError (null_read prop) = true.
Proof. reflexivity. Qed.

Lemma null_write_is_TypeError (prop : string) : is_TypeError (null_write prop) = true.
Proof. reflexivity. Qed.

(** X8. [run()] attaches the encrypt listener exactly when [init()]
    resolved and the encrypt button exists, and the decrypt listener
    exactly when, in addition, the decrypt button exists, which is also
    exactly when its promise is fulfilled; a rejection of [init()] is
    passed on as it is, and any other failure is a [TypeError].  The three
    other elements play no part. *)
Theorem run_attaches_in_order (init : completion unit) (d : Document) :
  (on_encryptBtn (snd (run init d)) = true <->
   init = Normal tt /\ has_encryptBtn d = true) /\
  (on_decryptBtn (snd (run init d)) = true <->
   init = Normal tt /\ has_encryptBtn d = true /\ has_decryptBtn d = true) /\
  (fst (run init d) = Normal tt <-> on_decryptBtn (snd (run init d)) = true) /\
  (forall e, init = Throw e -> fst (run init d) = Throw e) /\
  (forall e, init = Normal tt -> fst (run init d) = Throw e -> is_TypeError e = true).
Proof.
  unfold run. destruct init as [[] | e0]; simpl.
  - destruct (has_encryptBtn d), (has_decryptBtn d); simpl;
      repeat split; try tauto; try discriminate; try (intros; intuition discriminate);
      try (intros e _ [= <-]; reflexivity).
  - repeat split; try discriminate; try (intros; intuition discriminate);
      try (intros e [= ->]; reflexivity).
Qed.

Lemma dispatch_without_listeners (d : Document) (cs : list Click) (w : World) :
  dispatch_all (mkListeners false false) d cs w = w.
Proof. induction cs as [| [] cs IH]; simpl; auto. Qed.

(** X9. If [init()] rejects, or the page has no encrypt button, no click on
    either button ever does anything: nothing is written, no export is
    invoked.  In particular a page without the encrypt button has a dead
    decrypt button, because [run()] fails before it attaches the second
    listener. *)
Theorem page_is_dead_without_first_listener
        (init : completion unit) (d : Document) (cs : list Click) (w : World) :
  (exists e, init = Throw e) \/ has_encryptBtn d = false ->
  page_session init d cs w = w.
Proof.
  intros H. unfold page_session.
  assert (R : snd (run init d) = mkListeners false false).
  { unfold run. destruct H as [[e ->] | H]; [reflexivity |].
    rewrite H. by destruct init. }
  rewrite R. apply dispatch_without_listeners.
Qed.

(** X10. If the password field or the data field is missing from the page,
    a click on either button throws a [TypeError] at the first line of the
    listener: the world is left exactly as it was, and the exception goes
    to the host. *)
Theorem missing_field_throws_at_once (d : Document) (c : Click) (w : World) :
  has_password d = false \/ has_data d = false ->
  exists e, is_TypeError e = true /\
            dispatch (mkListeners true true) d c w = (Throw e, w).
Proof.
  intros H. destruct (has_password d) eqn:Hp.
  - destruct H as [H | Hd]; [discriminate |].
    exists (null_read "value"). split; [reflexivity |].
    destruct c; simpl;
      unfold encrypt_listener, decrypt_listener, js_bind, get_prop; simpl;
      by rewrite Hp, Hd.
  - exists (null_read "value"). split; [reflexivity |].
    destruct c; simpl;
      unfold encrypt_listener, decrypt_listener, js_bind, get_prop; simpl;
      by rewrite Hp.
Qed.


Lemma listeners_on_whole_page (d : Document) (w : World) :
  has_password d = true -> has_data d = true -> has_output d = true ->
  encrypt_listener d w = encryptBtn_click w /\
  decrypt_listener d w = decryptBtn_click w.
Proof.
  intros Hp Hd Ho.
  unfold encrypt_listener, decrypt_listener, encryptBtn_click, decryptBtn_click,
    get_prop, set_prop; simpl.
  by rewrite Hp, Hd, Ho.
Qed.

(** C9, as amended.  On a page that has the two fields and the output
    element: when the fields are filled in and the export throws a value
    whose conversion to a string answers [shown], the handler ends
    normally with "Encryption failed: " (respectively "Decryption
    failed: ") followed by [shown] in the output element and the class
    "error".  A handler lets an exception reach the host only when the
    fields were filled in, the export threw, and the conversion of what it
    threw itself throws; what reaches the host is what the conversion
    threw, and the page is then left as it was. *)
Theorem thrown_value_is_rendered_if_it_converts (d : Document) (w : World) :
  has_password d = true -> has_data d = true -> has_output d = true ->
  (forall e m shown,
     password_value (page w) <> "" -> data_value (page w) <> "" ->
     encrypt_wrapper (TextEncoder_encode (data_value (page w)))
                     (password_value (page w)) (wasm w) = (Throw e, m) ->
     ToString e = Normal shown ->
     fst (encrypt_listener d w) = Normal tt /\
     output_textContent (page (snd (encrypt_listener d w)))
       = "Encryption failed: " +:+ shown /\
     output_className (page (snd (encrypt_listener d w))) = "error") /\
  (forall e m shown,
     password_value (page w) <> "" -> data_value (page w) <> "" ->
     decrypt_wrapper (data_value (page w)) (password_value (page w)) (wasm w)
       = (Throw e, m) ->
     ToString e = Normal shown ->
     fst (decrypt_listener d w) = Normal tt /\
     output_textContent (page (snd (decrypt_listener d w)))
       = "Decryption failed: " +:+ shown /\
     output_className (page (snd (decrypt_listener d w))) = "error") /\
  (forall t,
     fst (encrypt_listener d w) = Throw t ->
     password_value (page w) <> "" /\ data_value (page w) <> "" /\
     (exists e m,
        encrypt_wrapper (TextEncoder_encode (data_value (page w)))
                        (password_value (page w)) (wasm w) = (Throw e, m) /\
        ToString e = Throw t) /\
     page (snd (encrypt_listener d w)) = page w) /\
  (forall t,
     fst (decrypt_listener d w) = Throw t ->
     password_value (page w) <> "" /\ data_value (page w) <> "" /\
     (exists e m,
        decrypt_wrapper (data_value (page w)) (password_value (page w)) (wasm w)
          = (Throw e, m) /\
        ToString e = Throw t) /\
     page (snd (decrypt_listener d w)) = page w).
Proof.
  intros Hp Hd Ho.
  destruct (listeners_on_whole_page d w Hp Hd Ho) as [-> ->].
  destruct (not_string (password_value (page w)) || not_string (data_value (page w)))
    eqn:G.
  - rewrite (encryptBtn_click_guarded w G), (decryptBtn_click_guarded w G); simpl.
    repeat split; try discriminate;
      exfalso; apply orb_true_iff in G; rewrite !not_string_true in G; tauto.
  - rewrite (encryptBtn_click_called w G), (decryptBtn_click_called w G); simpl.
    apply guard_passes in G as [Fp Fd].
    split; [| split; [| split]].
    + intros e m shown _ _ -> ->. by simpl.
    + intros e m shown _ _ -> ->. by simpl.
    + intros t.
      destruct (encrypt_wrapper _ _ _) as [[payload | e] m];
        [| destruct (ToString e) as [shown | t0] eqn:T]; simpl;
        try discriminate.
      intros [= ->]. repeat split; eauto.
    + intros t.
      destruct (decrypt_wrapper _ _ _) as [[bytes | e] m];
        [| destruct (ToString e) as [shown | t0] eqn:T]; simpl;
        try discriminate.
      intros [= ->]. repeat split; eauto.
Qed.

(** X12. On a page that has all five elements, once [init()] has resolved,
    [run()] is fulfilled and whatever the user clicks runs exactly the two
    handlers: each click ends as the handler ends and leaves the world the
    handler leaves, and a session on the page is a session of the
    handlers. *)
Theorem whole_page_runs_the_handlers (d : Document) (cs : list Click) (w : World) :
  has_password d = true -> has_data d = true -> has_encryptBtn d = true ->
  has_decryptBtn d = true -> has_output d = true ->
  fst (run (Normal tt) d) = Normal tt /\
  page_session (Normal tt) d cs w = clicks cs w /\
  forall c w', dispatch (snd (run (Normal tt) d)) d c w' = listener c w'.
Proof.
  intros Hp Hd He Hdc Ho. unfold page_session, run. rewrite He, Hdc; simpl.
  assert (D : forall c w', dispatch (mkListeners true true) d c w' = listener c w').
  { intros c w'. destruct (listeners_on_whole_page d w' Hp Hd Ho) as [E1 E2].
    by destruct c. }
  split; [reflexivity | split; [| exact D]].
  revert w. induction cs as [| c cs IH]; intros w; simpl; [reflexivity |].
  by rewrite D, IH.
Qed.

End Proofs.

(** The theorems above on the sample pages. *)

(** With both fields filled in and every element in place, an export that
    throws a [Symbol] sends the encrypt handler into its catch block, where
    the template literal throws in turn: the click ends with a [TypeError]
    for the host, the output element is not written and its class is not
    "error". *)
Lemma symbol_escapes_the_catch_block :
  @encrypt_wrapper SampleImports.throwing_symbol
     (list_byte_of_string "some data") "hunter2" 0%nat
    = (Throw (JsSymbol "vault"), 1%nat) /\
  encryptBtn_click symbol_page
    = (Throw symbol_conversion,
       @mkWorld SampleImports.throwing_symbol
         (mkPage "hunter2" "some data" "" "") 1
         [CalledEncrypt (list_byte_of_string "some data") "hunter2"]) /\
  fst (encryptBtn_click symbol_page) <> Normal tt /\
  output_className (page (snd (encryptBtn_click symbol_page))) <> "error".
Proof. repeat split; discriminate. Qed.

Lemma thrown_value_is_rendered_if_it_converts_witness :
  fst (encrypt_listener complete SampleImports.filled_in) = Normal tt /\
  output_textContent (page (snd (encrypt_listener complete SampleImports.filled_in)))
    = "Encryption failed: RuntimeError: unreachable" /\
  output_className (page (snd (encrypt_listener complete SampleImports.filled_in)))
    = "error".
Proof.
  destruct (thrown_value_is_rendered_if_it_converts complete SampleImports.filled_in
              eq_refl eq_refl eq_refl) as (He & _).
  apply (He (JsErrorObject "RuntimeError" "unreachable") 1%nat);
    [discriminate | discriminate | reflexivity | reflexivity].
Defined.

(** Without the output element, an export that throws an object whose
    [toString] throws "boom" makes the click end with "boom", not with a
    [TypeError]. *)
Example unprintable_escapes_as_thrown :
  fst (dispatch (mkListeners true true) no_output EncryptClick unprintable_page)
    = Throw (JsString "boom").
Proof. reflexivity. Qed.

Lemma result_is_shown_and_class_cleared_witness :
  page (snd (encryptBtn_click stale_page))
    = mkPage "hunter2" "some data" "some data" "" /\
  page (snd (decryptBtn_click stale_page))
    = mkPage "hunter2" "some data" "some data" "".
Proof.
  destruct (result_is_shown_and_class_cleared stale_page) as [He Hd];
    [discriminate | discriminate |].
  split.
  - apply (He "some data" 1%nat). reflexivity.
  - apply (Hd (list_byte_of_string "some data") 1%nat). reflexivity.
Defined.

Lemma click_ignores_previous_output_witness :
  page (snd (listener EncryptClick stale_page))
    = page (snd (listener EncryptClick clean_page)).
Proof.
  apply (click_ignores_previous_output EncryptClick stale_page clean_page);
    reflexivity.
Defined.

Lemma blank_field_session_witness :
  page (clicks [EncryptClick; EncryptClick; DecryptClick] SampleImports.blank_password)
    = mkPage "" "some data"
             "Please provide a password and the encrypted JSON payload." "error".
Proof.
  apply (blank_field_session [EncryptClick; EncryptClick] DecryptClick
           SampleImports.blank_password).
  left. reflexivity.
Defined.

Lemma encrypt_paste_decrypt_witness :
  page (snd (decryptBtn_click (paste_output (snd (encryptBtn_click stale_page)))))
    = mkPage "hunter2" "some data" "some data" "".
Proof.
  apply (encrypt_paste_decrypt stale_page "some data" 1%nat 2%nat
           (list_byte_of_string "some data"));
    [discriminate | discriminate | reflexivity | discriminate | reflexivity].
Defined.

Lemma page_is_dead_without_first_listener_witness :
  page_session (Normal tt) no_encrypt_button [DecryptClick; EncryptClick] stale_page
    = stale_page.
Proof.
  apply page_is_dead_without_first_listener. right. reflexivity.
Defined.

Lemma missing_field_throws_at_once_witness :
  exists e, is_TypeError e = true /\
            dispatch (mkListeners true true) no_password_field EncryptClick stale_page
              = (Throw e, stale_page).
Proof.
  apply (missing_field_throws_at_once no_password_field EncryptClick stale_page).
  left. reflexivity.
Defined.


Lemma whole_page_runs_the_handlers_witness :
  page_session (Normal tt) complete [EncryptClick; DecryptClick] stale_page
    = clicks [EncryptClick; DecryptClick] stale_page.
Proof.
  apply (whole_page_runs_the_handlers complete [EncryptClick; DecryptClick] stale_page);
    reflexivity.
Defined.

End StartupProofs.
